(** * lessons/lesson6_6.py: shaping OpenStreetMap elements into documents

    A shallow embedding of [shape_element] and its helpers, followed by the
    properties of the shaped document that the specification states.

    - Python strings are [string]s, [element.attrib] is an association list
      in iteration order (a dict: keys are unique, see [wf_attrib]), the
      document [node] is a [gmap] from keys to Python values.
    - Exceptions are the [Err] results of the [res] monad; a [for] loop is
      [for_in], which stops at the first exception.
    - [float(value)] is a parameter [float : string -> option F] of the
      development: [None] is Python's [ValueError]. *)

From stdpp Require Import gmap strings list.
From Stdlib Require Import Ascii DecimalString.

Open Scope string_scope.
Open Scope list_scope.
Set Warnings "-register-all".

(** ** Exceptions *)

Inductive error : Set :=
| KeyError        (* d[k] on a missing key *)
| ValueError      (* float(s) on a non-numeric string *)
| TypeError       (* item assignment on a str or a list index that is a str *)
| AttributeError  (* .insert / .append on an object that has none *)
| IndexError.     (* values[1] out of range *)

Inductive res (A : Type) : Type :=
| Ok (a : A)
| Err (e : error).
Arguments Ok {A} a.
Arguments Err {A} e.

#[global] Instance res_ret : MRet res := λ A a, Ok a.
#[global] Instance res_bind : MBind res := λ A B f m,
  match m with
  | Ok a => f a
  | Err e => Err e
  end.

(** [for x in l: s = body(s, x)], left to right, the first exception ends it. *)
Fixpoint for_in {A S : Type} (l : list A) (body : S → A → res S) (s : S) : res S :=
  match l with
  | [] => Ok s
  | x :: l' => s' ← body s x; for_in l' body s'
  end.

(** ** Python values *)

(** The items of a list: [pos] holds floats, [node_refs] holds strings. *)
Inductive atom (F : Type) : Type :=
| AStr (s : string)
| AFloat (x : F).
Arguments AStr {F} s.
Arguments AFloat {F} x.

(** The values of the document: a string, a nested dict of strings
    ([created], [address]) or a list ([pos], [node_refs]). *)
Inductive pyval (F : Type) : Type :=
| VStr (s : string)
| VDict (d : gmap string string)
| VList (l : list (atom F)).
Arguments VStr {F} s.
Arguments VDict {F} d.
Arguments VList {F} l.

(** ** XML elements (xml.etree.ElementTree.Element) *)

Inductive Element : Type :=
| mkElement (tag : string) (attrib : list (string * string)) (children : list Element).

Definition tag (e : Element) : string :=
  match e with mkElement t _ _ => t end.
Definition attrib (e : Element) : list (string * string) :=
  match e with mkElement _ a _ => a end.
Definition children (e : Element) : list Element :=
  match e with mkElement _ _ c => c end.

(** [element.getiterator()]: the element itself, then all its descendants,
    in document order. *)
Fixpoint getiterator (e : Element) : list Element :=
  match e with
  | mkElement _ _ cs =>
      e :: (fix descend (l : list Element) : list Element :=
              match l with
              | [] => []
              | c :: l' => getiterator c ++ descend l'
              end) cs
  end.

(** [d[k]] on an attribute dict. *)
Fixpoint attrib_get (d : list (string * string)) (k : string) : option string :=
  match d with
  | [] => None
  | (k', v) :: d' => if decide (k' = k) then Some v else attrib_get d' k
  end.

Definition getitem (d : list (string * string)) (k : string) : res string :=
  match attrib_get d k with
  | Some v => Ok v
  | None => Err KeyError
  end.

(** The keys of a dict are unique. *)
Definition wf_attrib (d : list (string * string)) : Prop := NoDup d.*1.

(** ** Strings *)

(** [s.split(sep)] for a separator of one character. *)
Fixpoint split (sep : ascii) (s : string) : list string :=
  match s with
  | EmptyString => [EmptyString]
  | String c s' =>
      if Ascii.eqb c sep then EmptyString :: split sep s'
      else match split sep s' with
           | seg :: segs => String c seg :: segs
           | [] => [String c EmptyString]
           end
  end.

(** [s.startswith(p)] *)
Fixpoint startswith (s p : string) {struct p} : bool :=
  match p with
  | EmptyString => true
  | String c p' =>
      match s with
      | EmptyString => false
      | String c' s' => Ascii.eqb c' c && startswith s' p'
      end
  end.

(** ** Module constants *)

(** The character class of the PROBLEM_CHARS pattern: = + / & < > ; ' ? % # $ @
    , . and the double quote (034), then space, tab (009), CR (013), LF (010). *)
Definition PROBLEM_CHARS : list ascii :=
  ["="; "+"; "/"; "&"; "<"; ">"; ";"; "'"; "034"; "?"; "%"; "#"; "$"; "@";
   ","; "."; " "; "009"; "013"; "010"]%char.

Definition CREATED : list string :=
  ["version"; "changeset"; "timestamp"; "user"; "uid"].
Definition POSITION : list string := ["lat"; "lon"].

(** ** A decimal reading of numeric strings

    One instance of the [float] parameter, used to run the embedding on
    concrete elements: an optional sign, digits, and optionally a point and
    more digits.  Python's [float] accepts more (exponents, blanks, inf). *)
Definition decimal_float (s : string) : option Decimal.decimal :=
  match split "." s with
  | [i] => option_map (λ i', Decimal.Decimal i' Decimal.Nil) (NilZero.int_of_string i)
  | [i; f] =>
      match NilZero.int_of_string i, NilEmpty.uint_of_string f with
      | Some i', Some f' => Some (Decimal.Decimal i' f')
      | _, _ => None
      end
  | _ => None
  end.

(** ** The functions of lesson6_6.py *)

(** [contains_bad_char]: [re.search(PROBLEM_CHARS, string)] finds a match. *)
Fixpoint contains_bad_char (s : string) : bool :=
  match s with
  | EmptyString => false
  | String c s' => bool_decide (c ∈ PROBLEM_CHARS) || contains_bad_char s'
  end.

Definition is_compound_street_address (s : string) : bool :=
  let values := split ":" s in
  bool_decide (2 < length values) && bool_decide (values !! 1 = Some "street").

Section Shape.
Context {F : Type}.
(** [float(value)]; [None] when Python raises [ValueError]. *)
Variable float : string → option F.

Abbreviation document := (gmap string (pyval F)).

Definition to_float (value : string) : res F :=
  match float value with
  | Some x => Ok x
  | None => Err ValueError
  end.

(** The body of the loop of [transform_element_attributes]. *)
Definition classify_attribute (element : Element)
    (node : document) (attribute : string) : res document :=
  value ← getitem (attrib element) attribute;
  if decide (attribute ∈ CREATED) then
    let node := match node !! "created" with
                | None => <["created" := VDict ∅]> node
                | Some _ => node
                end in
    match node !! "created" with
    | Some (VDict d) => Ok (<["created" := VDict (<[attribute := value]> d)]> node)
    | Some _ => Err TypeError
    | None => Err KeyError
    end
  else if decide (attribute ∈ POSITION) then
    let node := match node !! "pos" with
                | None => <["pos" := VList []]> node
                | Some _ => node
                end in
    if decide (attribute = "lat") then
      match node !! "pos" with
      | Some (VList l) =>
          x ← to_float value; Ok (<["pos" := VList (AFloat x :: l)]> node)
      | Some _ => Err AttributeError
      | None => Err KeyError
      end
    else
      match node !! "pos" with
      | Some (VList l) =>
          x ← to_float value; Ok (<["pos" := VList (l ++ [AFloat x])]> node)
      | Some _ => Err AttributeError
      | None => Err KeyError
      end
  else
    Ok (<[attribute := VStr value]> node).

Definition transform_element_attributes (node : document) (element : Element)
    : res document :=
  let attributes := (attrib element).*1 in
  for_in attributes (classify_attribute element) node.

Definition transform_tag_elem (node : document) (sub_elem : Element) : res document :=
  k_val ← getitem (attrib sub_elem) "k";
  v_val ← getitem (attrib sub_elem) "v";
  if contains_bad_char k_val || is_compound_street_address k_val then
    Ok node
  else if startswith k_val "addr:" then
    let node := match node !! "address" with
                | None => <["address" := VDict ∅]> node
                | Some _ => node
                end in
    let values := split ":" k_val in
    match values !! 1 with
    | None => Err IndexError
    | Some key =>
        match node !! "address" with
        | Some (VDict d) => Ok (<["address" := VDict (<[key := v_val]> d)]> node)
        | Some _ => Err TypeError
        | None => Err KeyError
        end
    end
  else
    Ok (<[k_val := VStr v_val]> node).

Definition transform_nd_tag (node : document) (sub_elm : Element) : res document :=
  ref ← getitem (attrib sub_elm) "ref";
  match node !! "node_refs" with
  | Some (VList l) => Ok (<["node_refs" := VList (l ++ [AStr ref])]> node)
  | Some _ => Err AttributeError
  | None => Ok (<["node_refs" := VList [AStr ref]]> node)
  end.

(** The body of the loop of [transform_sub_elem_attributes]. *)
Definition classify_child (node : document) (sub_elm : Element) : res document :=
  node ← (if decide (tag sub_elm = "tag") then transform_tag_elem node sub_elm
          else Ok node);
  if decide (tag sub_elm = "nd") then transform_nd_tag node sub_elm
  else Ok node.

Definition transform_sub_elem_attributes (node : document) (element : Element)
    : res document :=
  let sub_elements := getiterator element in
  for_in sub_elements classify_child node.

Definition shape_element (element : Element) : res (option document) :=
  let node : document := ∅ in
  if decide (tag element = "node" ∨ tag element = "way") then
    let node := <["type" := VStr (tag element)]> node in
    node ← transform_element_attributes node element;
    node ← transform_sub_elem_attributes node element;
    Ok (Some node)
  else
    Ok None.

End Shape.


(** ** Vocabulary of the properties *)

(** The element is one that [shape_element] processes. *)
Definition accepted (e : Element) : Prop := tag e = "node" ∨ tag e = "way".

(** The [k] attributes of the "tag" elements of [l], in order. *)
Definition tag_keys (l : list Element) : list string :=
  omap (λ s, if decide (tag s = "tag") then attrib_get (attrib s) "k" else None) l.

(** The [ref] attributes of the "nd" elements of [l], in order. *)
Definition nd_refs (l : list Element) : list string :=
  omap (λ s, if decide (tag s = "nd") then attrib_get (attrib s) "ref" else None) l.

(** A list field of the document that is created by its first item:
    absent for no items. *)
Definition list_field {F : Type} (l : list (atom F)) : option (pyval F) :=
  match l with
  | [] => None
  | _ => Some (VList l)
  end.

(** The item that attribute [name] contributes to [pos]. *)
Definition pos_item {F : Type} (float : string → option F)
    (d : list (string * string)) (name : string) : list (atom F) :=
  match attrib_get d name ≫= float with
  | Some x => [AFloat x]
  | None => []
  end.

(** The [address] dict of a document that has one, the empty dict if not. *)
Definition address_of {F : Type} (node : gmap string (pyval F)) : gmap string string :=
  match node !! "address" with
  | Some (VDict d) => d
  | _ => ∅
  end.

Definition dict_or_absent {F : Type} (o : option (pyval F)) : Prop :=
  match o with
  | None | Some (VDict _) => True
  | Some _ => False
  end.

Definition list_or_absent {F : Type} (o : option (pyval F)) : Prop :=
  match o with
  | None | Some (VList _) => True
  | Some _ => False
  end.

(** The nested fields that the attribute loop relies on. *)
Definition attr_inv {F : Type} (node : gmap string (pyval F)) : Prop :=
  dict_or_absent (node !! "created") ∧ list_or_absent (node !! "pos").

(** The nested fields that the child loop relies on. *)
Definition child_inv {F : Type} (node : gmap string (pyval F)) : Prop :=
  dict_or_absent (node !! "address") ∧ list_or_absent (node !! "node_refs").

(** Every [lat] and [lon] of the dict is numeric. *)
Definition numeric_coordinates {F : Type} (float : string → option F)
    (d : list (string * string)) : bool :=
  forallb (λ kv, if decide (kv.1 ∈ POSITION)
                 then match float kv.2 with Some _ => true | None => false end
                 else true) d.

(** A "tag" element has [k] and [v], an "nd" element has [ref]. *)
Definition complete_child (s : Element) : bool :=
  if decide (tag s = "tag") then
    match attrib_get (attrib s) "k", attrib_get (attrib s) "v" with
    | Some _, Some _ => true
    | _, _ => false
    end
  else if decide (tag s = "nd") then
    match attrib_get (attrib s) "ref" with Some _ => true | None => false end
  else true.

(** Input on which no step of [shape_element] raises: numeric coordinates,
    complete "tag" and "nd" elements, and no attribute or tag key named like
    a nested field that a later step extends. *)
Definition well_shaped {F : Type} (float : string → option F) (e : Element) : Prop :=
  numeric_coordinates float (attrib e) = true ∧
  forallb complete_child (getiterator e) = true ∧
  (("created" ∉ (attrib e).*1) ∧ ("pos" ∉ (attrib e).*1) ∧
   ("address" ∉ (attrib e).*1) ∧ ("node_refs" ∉ (attrib e).*1)) ∧
  (("address" ∉ tag_keys (getiterator e)) ∧ ("node_refs" ∉ tag_keys (getiterator e))).

(** ** Sample elements *)

(** The node of the test of lesson6_6.py. *)
Definition ex_node : Element :=
  mkElement "node"
    [("id", "261114295"); ("visible", "true"); ("version", "7");
     ("changeset", "11129782"); ("timestamp", "2012-03-28T18:31:23Z");
     ("user", "bbmiller"); ("uid", "451048");
     ("lat", "41.9730791"); ("lon", "-87.6866303")] [].

(** The same node with [lon] met before [lat]. *)
Definition ex_node_lon_first : Element :=
  mkElement "node"
    [("lon", "-87.6866303"); ("id", "261114295"); ("lat", "41.9730791")] [].

Definition mk_tag (k v : string) : Element := mkElement "tag" [("k", k); ("v", v)] [].
Definition mk_nd (ref : string) : Element := mkElement "nd" [("ref", ref)] [].

(** The tags and node references of the docstring, on a way that closes
    on its first node. *)
Definition ex_way : Element :=
  mkElement "way" [("id", "209809850"); ("visible", "true")]
    [mk_nd "305896090"; mk_nd "1719825889"; mk_nd "305896090";
     mk_tag "addr:housenumber" "5158";
     mk_tag "addr:street" "North Lincoln Avenue";
     mk_tag "addr:street:name" "Lincoln";
     mk_tag "addr:street:prefix" "North";
     mk_tag "addr:street:type" "Avenue";
     mk_tag "amenity" "pharmacy"].

Definition ex_relation : Element :=
  mkElement "relation" [("id", "1")] [mkElement "member" [("ref", "2")] []].

(** Elements on which a key of the input meets a key of the document. *)
Definition ex_node_bad_lat : Element := mkElement "node" [("lat", "north")] [].
Definition ex_node_lat_only : Element := mkElement "node" [("lat", "41.9730791")] [].
Definition ex_node_pos_tag : Element :=
  mkElement "node" [("lat", "41.9730791"); ("lon", "-87.6866303")]
    [mk_tag "pos" "here"].
Definition ex_way_type_tag : Element :=
  mkElement "way" [("id", "7")] [mk_tag "type" "multipolygon"].
Definition ex_node_address_tag : Element :=
  mkElement "node" [("id", "7")]
    [mk_tag "address" "5158 North Lincoln Avenue"; mk_tag "addr:street" "North Lincoln Avenue"].
Definition ex_way_refs_tag : Element :=
  mkElement "way" [("id", "7")] [mk_nd "1"; mk_nd "2"; mk_tag "node_refs" "none"].
Definition ex_node_with_nd : Element :=
  mkElement "node" [("id", "7")] [mk_nd "305896090"].
Definition ex_node_pos_attr : Element :=
  mkElement "node" [("pos", "here"); ("lat", "north")] [].

(** The documents that [shape_element] returns on them, with the decimal
    reading of the coordinates. *)
Definition ex_lat : Decimal.decimal :=
  Eval vm_compute in
    default (Decimal.Decimal (Decimal.Pos Decimal.Nil) Decimal.Nil)
            (decimal_float "41.9730791").
Definition ex_lon : Decimal.decimal :=
  Eval vm_compute in
    default (Decimal.Decimal (Decimal.Pos Decimal.Nil) Decimal.Nil)
            (decimal_float "-87.6866303").

Definition ex_node_doc : gmap string (pyval Decimal.decimal) :=
  <["type" := VStr "node"]> (<["id" := VStr "261114295"]> (<["visible" := VStr "true"]>
  (<["created" := VDict (<["version" := "7"]> (<["changeset" := "11129782"]>
                        (<["timestamp" := "2012-03-28T18:31:23Z"]>
                        (<["user" := "bbmiller"]> (<["uid" := "451048"]> ∅)))))]>
  (<["pos" := VList [AFloat ex_lat; AFloat ex_lon]]> ∅)))).

Definition ex_node_lon_first_doc : gmap string (pyval Decimal.decimal) :=
  <["type" := VStr "node"]> (<["id" := VStr "261114295"]>
  (<["pos" := VList [AFloat ex_lat; AFloat ex_lon]]> ∅)).

Definition ex_way_doc : gmap string (pyval Decimal.decimal) :=
  <["type" := VStr "way"]> (<["id" := VStr "209809850"]> (<["visible" := VStr "true"]>
  (<["node_refs" := VList [AStr "305896090"; AStr "1719825889"; AStr "305896090"]]>
  (<["address" := VDict (<["housenumber" := "5158"]>
                        (<["street" := "North Lincoln Avenue"]> ∅))]>
  (<["amenity" := VStr "pharmacy"]> ∅))))).

Definition ex_node_lat_only_doc : gmap string (pyval Decimal.decimal) :=
  <["type" := VStr "node"]> (<["pos" := VList [AFloat ex_lat]]> ∅).
Definition ex_node_pos_tag_doc : gmap string (pyval Decimal.decimal) :=
  <["type" := VStr "node"]> (<["pos" := VStr "here"]> ∅).
Definition ex_way_type_tag_doc : gmap string (pyval Decimal.decimal) :=
  <["type" := VStr "multipolygon"]> (<["id" := VStr "7"]> ∅).
Definition ex_way_refs_tag_doc : gmap string (pyval Decimal.decimal) :=
  <["type" := VStr "way"]> (<["id" := VStr "7"]> (<["node_refs" := VStr "none"]> ∅)).
Definition ex_node_with_nd_doc : gmap string (pyval Decimal.decimal) :=
  <["type" := VStr "node"]> (<["id" := VStr "7"]>
  (<["node_refs" := VList [AStr "305896090"]]> ∅)).

(** ** The driver of lesson6_6.py: process_map *)

(** [ET.iterparse(file_in)] on a well-formed file: every element of the
    document, each one when its end tag is read, so the descendants of an
    element come before it.  The file is given by its root element. *)
Fixpoint iterparse (file_in : Element) : list Element :=
  match file_in with
  | mkElement _ _ cs =>
      (fix ends (l : list Element) : list Element :=
         match l with
         | [] => []
         | c :: l' => iterparse c ++ ends l'
         end) cs ++ [file_in]
  end.

(** The test [if el:] on what [shape_element] returns: [None] and the empty
    dict are false. *)
Definition truthy {F : Type} (el : option (gmap string (pyval F))) : bool :=
  match el with
  | None => false
  | Some d => bool_decide (d ≠ ∅)
  end.

Section ProcessMap.
Context {F : Type}.
Variable float : string → option F.
(** [json.dumps(el)] and [json.dumps(el, indent=2)]. *)
Variable dumps : option nat → gmap string (pyval F) → string.

(** The loop of [process_map] from the elements that are left, the list
    [data] and the content [fo] of the output file so far.  An exception
    leaves the file with what was written before it. *)
Fixpoint process_elements (elements : list Element) (pretty : bool)
    (data : list (gmap string (pyval F))) (fo : string)
    : string * res (list (gmap string (pyval F))) :=
  match elements with
  | [] => (fo, Ok data)
  | element :: elements' =>
      match shape_element float element with
      | Err err => (fo, Err err)
      | Ok el =>
          if truthy el then
            match el with
            | Some d =>
                let data := data ++ [d] in
                let fo := if pretty
                          then fo +:+ (dumps (Some 2) d +:+ String "010" "")
                          else fo +:+ (dumps None d +:+ String "010" "") in
                process_elements elements' pretty data fo
            | None => process_elements elements' pretty data fo
            end
          else process_elements elements' pretty data fo
      end
  end.

(** The content of the output file and the returned list. *)
Definition process_map (file_in : Element) (pretty : bool)
    : string * res (list (gmap string (pyval F))) :=
  process_elements (iterparse file_in) pretty [] "".
End ProcessMap.

(** ** psets/pset2_1.py: extract_carriers *)

(** What BeautifulSoup makes of a page: strings and tags. *)
Inductive PageElement : Type :=
| NavigableString (s : string)
| Tag (name : string) (attrs : list (string * string)) (contents : list PageElement).


(** The first result of [f] along a list. *)
Definition find_first {A B : Type} (f : A → option B) : list A → option B :=
  fix first (l : list A) : option B :=
    match l with
    | [] => None
    | x :: l' =>
        match f x with
        | Some y => Some y
        | None => first l'
        end
    end.

(** The first tag with this [id] among an element and its descendants, in
    document order. *)
Fixpoint find_tag (id : string) (p : PageElement) : option PageElement :=
  match p with
  | NavigableString _ => None
  | Tag _ attrs cs =>
      if decide (attrib_get attrs "id" = Some id) then Some p
      else find_first (find_tag id) cs
  end.

(** [soup.find(id=...)] on the top-level elements of the page. *)
Definition find (soup : list PageElement) (id : string) : option PageElement :=
  find_first (find_tag id) soup.

(** The body of the loop of [extract_carriers]. *)
Definition extract_child (data : list string) (child : PageElement) : res (list string) :=
  match child with
  | NavigableString s =>
      if decide (s ≠ String "010" "") then Err TypeError   (* child["value"] on a string *)
      else Ok data
  | Tag _ attrs _ =>
      val ← getitem attrs "value";
      if decide (String.length val < 3) then Ok (data ++ [val])
      else Ok data
  end.

Definition extract_carriers (page : list PageElement) : res (list string) :=
  let data := [] in
  let soup := page in
  match find soup "CarrierList" with
  | Some (Tag _ _ contents) => for_in contents extract_child data
  | _ => Err AttributeError   (* None has no .contents *)
  end.

(** ** More vocabulary *)

(** [sep.join(l)] *)
Fixpoint join (sep : string) (l : list string) : string :=
  match l with
  | [] => ""
  | [x] => x
  | x :: l' => x +:+ sep +:+ join sep l'
  end.

(** The string holds no ':'. *)
Definition colon_free (s : string) : Prop := ":"%char ∉ String.list_ascii_of_string s.

(** What a document may hold under key [k]: a string anywhere, a dict as
    [created] with keys of CREATED or as [address] with keys without ':',
    a list as [pos] of floats or as [node_refs] of strings. *)
Definition schema_value {F : Type} (k : string) (v : pyval F) : Prop :=
  match v with
  | VStr _ => True
  | VDict m =>
      (k = "created" ∧ ∀ a, is_Some (m !! a) → a ∈ CREATED) ∨
      (k = "address" ∧ ∀ a, is_Some (m !! a) → colon_free a)
  | VList l =>
      (k = "pos" ∧ ∀ i, i ∈ l → ∃ x, i = AFloat x) ∨
      (k = "node_refs" ∧ ∀ i, i ∈ l → ∃ r, i = AStr r)
  end.

(** A document with a string [type] whose values are all as above. *)
Definition schema {F : Type} (node : gmap string (pyval F)) : Prop :=
  (∃ t, node !! "type" = Some (VStr t)) ∧
  ∀ k v, node !! k = Some v → schema_value k v.

(** The [created] field once the attributes [acc] are processed: absent
    when none of them is in CREATED, else the dict of those that are. *)
Definition created_state {F : Type} (d : list (string * string)) (acc : list string)
    (o : option (pyval F)) : Prop :=
  match o with
  | None => ∀ a, a ∈ acc → a ∉ CREATED
  | Some (VDict m) =>
      (∃ a, a ∈ acc ∧ a ∈ CREATED) ∧
      ∀ a, m !! a = if decide (a ∈ CREATED ∧ a ∈ acc) then attrib_get d a else None
  | Some _ => False
  end.

(** The element is one that the child loop looks at. *)
Definition relevant_child (s : Element) : bool :=
  bool_decide (tag s = "tag" ∨ tag s = "nd").

(** The "tag" element is complete and its key is not rejected. *)
Definition accepted_key (s : Element) (k v : string) : Prop :=
  tag s = "tag" ∧
  attrib_get (attrib s) "k" = Some k ∧ attrib_get (attrib s) "v" = Some v ∧
  contains_bad_char k || is_compound_street_address k = false.

(** The "tag" element has an accepted key that starts with [addr:]. *)
Definition writes_address (s : Element) : bool :=
  if decide (tag s = "tag") then
    match attrib_get (attrib s) "k" with
    | Some k =>
        negb (contains_bad_char k || is_compound_street_address k) &&
        startswith k "addr:"
    | None => false
    end
  else false.

(** The keys under which the "tag" elements of [l] write into [address]:
    the second segment of every accepted key that starts with [addr:]. *)
Definition addr_keys (l : list Element) : list string :=
  omap (λ s, if writes_address s then
               match attrib_get (attrib s) "k" with
               | Some k => split ":" k !! 1
               | None => None
               end
             else None) l.

(** The document has the entry [key] in its [address] dict. *)
Definition has_address_entry {F : Type} (node : gmap string (pyval F)) (key v : string) : Prop :=
  ∃ m, node !! "address" = Some (VDict m) ∧ m !! key = Some v.

#[global] Instance accepted_dec (e : Element) : Decision (accepted e).
Proof. unfold accepted. apply _. Defined.

(** The lines that [process_map] writes for the documents [data]. *)
Definition json_lines {F : Type} (dumps : option nat → gmap string (pyval F) → string)
    (pretty : bool) (data : list (gmap string (pyval F))) : string :=
  join "" ((λ d, dumps (if pretty then Some 2 else None) d +:+ String "010" "") <$> data).



(** ** More sample input *)

(** A small map file: bounds, a node, a way with a tag and two references. *)
Definition ex_osm : Element :=
  mkElement "osm" [("version", "0.6")]
    [mkElement "bounds" [("minlat", "41.9704500")] [];
     ex_node;
     ex_way;
     ex_relation].


(** A way with a tag named like one of its attributes, and a key with a
    colon that is not an address. *)
Definition ex_way_tagged : Element :=
  mkElement "way" [("id", "209809850"); ("user", "bbmiller")]
    [mk_tag "gnis:feature_id" "423587"; mk_tag "id" "from a tag"].
Definition ex_way_tagged_doc : gmap string (pyval Decimal.decimal) :=
  <["type" := VStr "way"]> (<["id" := VStr "from a tag"]>
  (<["created" := VDict (<["user" := "bbmiller"]> ∅)]>
  (<["gnis:feature_id" := VStr "423587"]> ∅))).

(** A way with a "tag" child that has no [v]. *)
Definition ex_way_incomplete : Element :=
  mkElement "way" [("id", "7")]
    [mk_tag "name" "Lincoln Square"; mkElement "tag" [("k", "amenity")] []].

(** A stand-in for [json.dumps] that tells the documents by their type. *)
Definition ex_dumps (indent : option nat) (d : gmap string (pyval Decimal.decimal)) : string :=
  match d !! "type" with
  | Some (VStr t) =>
      match indent with
      | Some _ => "{ " +:+ t +:+ " }"
      | None => "{" +:+ t +:+ "}"
      end
  | _ => "{}"
  end.

(** The select list of the carriers page, cut down. *)
Definition ex_page : list PageElement :=
  [Tag "html" []
     [NavigableString (String "010" "");
      Tag "select" [("id", "AirportList")] [Tag "option" [("value", "ATL")] []];
      Tag "select" [("id", "CarrierList"); ("name", "CarrierList")]
        [NavigableString (String "010" "");
         Tag "option" [("value", "All")] [NavigableString "All U.S. and Foreign Carriers"];
         NavigableString (String "010" "");
         Tag "option" [("value", "AllUS")] [NavigableString "All U.S. Carriers"];
         NavigableString (String "010" "");
         Tag "option" [("value", "FL")] [NavigableString "AirTran Airways"];
         NavigableString (String "010" "");
         Tag "option" [("value", "NK")] [NavigableString "Spirit Air Lines"];
         NavigableString (String "010" "")]]].

(** ** Lists, attribute dicts and strings *)

Lemma for_in_app {A S : Type} (body : S → A → res S) (l1 l2 : list A) (s : S) :
  for_in (l1 ++ l2) body s = for_in l1 body s ≫= for_in l2 body.
Proof.
  revert s. induction l1 as [|x l1 IH]; intros s; simpl; [done|].
  destruct (body s x) as [s'|err]; simpl; [apply IH | done].
Qed.

Lemma bind_Ok_inv {A B : Type} (m : res A) (f : A → res B) (b : B) :
  m ≫= f = Ok b → ∃ a, m = Ok a ∧ f a = Ok b.
Proof. destruct m as [a|err]; simpl; [eauto | discriminate]. Qed.

Lemma attrib_get_Some_elem (d : list (string * string)) k v :
  attrib_get d k = Some v → (k, v) ∈ d.
Proof.
  induction d as [|[k' v'] d IH]; simpl; [discriminate|].
  destruct (decide (k' = k)) as [Heq|Hne].
  - intros Hv. injection Hv as Hv. subst. left.
  - intros H. right. auto.
Qed.

Lemma attrib_get_None (d : list (string * string)) k :
  attrib_get d k = None ↔ k ∉ d.*1.
Proof.
  induction d as [|[k' v'] d IH]; simpl.
  - split; [intros _; apply not_elem_of_nil | done].
  - rewrite not_elem_of_cons. destruct (decide (k' = k)) as [->|Hne].
    + split; [discriminate | intros [? _]; done].
    + rewrite IH. split; [by split | by intros [_ ?]].
Qed.

Lemma attrib_get_is_Some (d : list (string * string)) k :
  k ∈ d.*1 → is_Some (attrib_get d k).
Proof.
  intros Hin. destruct (attrib_get d k) eqn:E; [eauto|].
  apply attrib_get_None in E. done.
Qed.

Lemma attrib_get_wf (d : list (string * string)) k v :
  wf_attrib d → (k, v) ∈ d → attrib_get d k = Some v.
Proof.
  unfold wf_attrib. induction d as [|[k' v'] d IH]; simpl.
  - intros _ Hin. by apply elem_of_nil in Hin.
  - rewrite NoDup_cons. intros [Hnotin Hnd] Hin.
    apply elem_of_cons in Hin as [[= -> ->]|Hin].
    + by rewrite decide_True.
    + rewrite decide_False; [auto|].
      intros ->. apply Hnotin. apply list_elem_of_fmap. by exists (k, v).
Qed.

Lemma split_nonempty sep s : split sep s ≠ [].
Proof.
  destruct s as [|c s]; simpl; [done|].
  destruct (Ascii.eqb c sep); [done|]. by destruct (split sep s).
Qed.

(** A key that starts with [addr:] has a second segment. *)
Lemma startswith_addr_split k :
  startswith k "addr:" = true →
  ∃ key rest, split ":" k = "addr" :: key :: rest.
Proof.
  destruct k as [|c1 [|c2 [|c3 [|c4 [|c5 r]]]]]; simpl;
    rewrite ?andb_false_r; try discriminate.
  rewrite !andb_true_iff, !Ascii.eqb_eq.
  intros (-> & -> & -> & -> & -> & _). simpl.
  destruct (split ":" r) as [|key rest] eqn:E; [by apply split_nonempty in E|].
  eauto.
Qed.

Lemma contains_bad_char_spec s :
  contains_bad_char s = true ↔
  ∃ c, c ∈ String.list_ascii_of_string s ∧ c ∈ PROBLEM_CHARS.
Proof.
  induction s as [|c s IH]; simpl.
  - split; [discriminate|]. intros (c & Hc & _). by apply elem_of_nil in Hc.
  - rewrite orb_true_iff, bool_decide_eq_true, IH. split.
    + intros [H|(c' & H1 & H2)].
      * exists c. split; [left | done].
      * exists c'. split; [by right | done].
    + intros (c' & H1 & H2). apply elem_of_cons in H1 as [->|H1]; [by left|].
      right. eauto.
Qed.

Lemma is_compound_street_address_spec s :
  is_compound_street_address s = true ↔
  2 < length (split ":" s) ∧ split ":" s !! 1 = Some "street".
Proof.
  unfold is_compound_street_address. simpl.
  by rewrite andb_true_iff, !bool_decide_eq_true.
Qed.

(** ** One step of each loop *)

(** Case analysis of a step that returned: the dict lookups, the tests and
    the conversions of hypothesis [H], in the order they are met. *)
Ltac run_step H :=
  repeat first
    [ progress (simpl in H)
    | rewrite lookup_insert_eq in H
    | discriminate H
    | progress (unfold getitem, to_float in H)
    | match type of H with
      | context [match attrib_get ?d ?k with _ => _ end] =>
          let E := fresh "E" in destruct (attrib_get d k) eqn:E
      | context [decide ?P] => destruct (decide P)
      | context [match ?m !! ?k with _ => _ end] =>
          is_var m;
          let E := fresh "E" in destruct (m !! k) as [[?|?|?]|] eqn:E
      | context [match ?f ?v with Some _ => _ | None => _ end] =>
          is_var f;
          let E := fresh "E" in destruct (f v) eqn:E
      | context [match split ?c ?k !! ?i with _ => _ end] =>
          let E := fresh "E" in destruct (split c k !! i) eqn:E
      | context [if ?b then _ else _] =>
          let E := fresh "E" in destruct b eqn:E
      end ].

Arguments startswith : simpl never.

Section Properties.
Context {F : Type} (float : string → option F).
Implicit Types (node : gmap string (pyval F)) (e s : Element).
Implicit Types (key a : string).

(** *** Attributes *)

Lemma POSITION_cases a : a ∈ POSITION → a = "lat" ∨ a = "lon".
Proof.
  unfold POSITION. rewrite !elem_of_cons, elem_of_nil. tauto.
Qed.

Lemma CREATED_not_position a :
  a ∈ CREATED → a ≠ "lat" ∧ a ≠ "lon" ∧ a ≠ "pos" ∧ a ≠ "created".
Proof.
  unfold CREATED. rewrite !elem_of_cons, elem_of_nil.
  intros H. repeat split; intros ->; repeat destruct H as [H|H]; done.
Qed.

Lemma classify_attribute_frame e node node' a key :
  classify_attribute float e node a = Ok node' →
  key ≠ a → key ≠ "created" → key ≠ "pos" →
  node' !! key = node !! key.
Proof.
  intros H Ha Hc Hp. unfold classify_attribute in H.
  run_step H; injection H as <-; by rewrite ?lookup_insert_ne.
Qed.

Lemma attributes_frame e ks node node' key :
  for_in ks (classify_attribute float e) node = Ok node' →
  key ∉ ks → key ≠ "created" → key ≠ "pos" →
  node' !! key = node !! key.
Proof.
  revert node. induction ks as [|a ks IH]; simpl; intros node H Hks Hc Hp.
  - by injection H as <-.
  - apply bind_Ok_inv in H as (node1 & H1 & H2).
    apply not_elem_of_cons in Hks as [Ha Hks].
    rewrite (IH _ H2 Hks Hc Hp).
    by apply (classify_attribute_frame _ _ _ _ _ H1).
Qed.

(** What one attribute adds to [pos]: [lat] in front, [lon] behind. *)
Lemma classify_attribute_pos e node node' a mid :
  classify_attribute float e node a = Ok node' →
  a ≠ "pos" →
  node !! "pos" = list_field mid →
  node' !! "pos" =
    list_field ((if decide (a = "lat") then pos_item float (attrib e) "lat" else []) ++
                mid ++
                (if decide (a = "lon") then pos_item float (attrib e) "lon" else [])).
Proof.
  intros H Ha Hmid. unfold classify_attribute in H.
  destruct (decide (a ∈ CREATED)) as [Hcr|Hcr].
  { apply CREATED_not_position in Hcr as (? & ? & _).
    rewrite !decide_False by done.
    rewrite app_nil_r. simpl. rewrite <- Hmid.
    run_step H; injection H as <-; by rewrite ?lookup_insert_ne. }
  destruct (decide (a ∈ POSITION)) as [Hpos|Hpos].
  - unfold pos_item. destruct (decide (a = "lat")) as [->|Hlat].
    + rewrite decide_False by done. rewrite app_nil_r.
      run_step H; injection H as <-; rewrite lookup_insert_eq;
        destruct mid; simplify_eq/=;
        match goal with Hf : float _ = Some _ |- _ => by rewrite Hf end.
    + assert (a = "lon") as -> by (by destruct (POSITION_cases _ Hpos)).
      rewrite decide_True by done.
      run_step H; injection H as <-; rewrite lookup_insert_eq;
        destruct mid; simplify_eq/=;
        match goal with Hf : float _ = Some _ |- _ => by rewrite Hf end.
  - assert (a ≠ "lat" ∧ a ≠ "lon") as [? ?].
    { split; intros ->; apply Hpos; unfold POSITION;
        rewrite !elem_of_cons; tauto. }
    rewrite !decide_False by done.
    rewrite app_nil_r. simpl. rewrite <- Hmid.
    run_step H; injection H as <-; by rewrite ?lookup_insert_ne.
Qed.

Lemma decide_elem_cons_ne {T : Type} (x a : string) (ks : list string) (u v : T) :
  x ≠ a →
  (if decide (x ∈ a :: ks) then u else v) = (if decide (x ∈ ks) then u else v).
Proof.
  intros Hne. destruct (decide (x ∈ a :: ks)) as [Hin|Hin], (decide (x ∈ ks)) as [Hin'|Hin'];
    try done.
  - apply elem_of_cons in Hin as [?|?]; done.
  - exfalso. apply Hin. by right.
Qed.

Lemma attributes_pos e ks node node' mid :
  NoDup ks → "pos" ∉ ks →
  for_in ks (classify_attribute float e) node = Ok node' →
  node !! "pos" = list_field mid →
  node' !! "pos" =
    list_field ((if decide ("lat" ∈ ks) then pos_item float (attrib e) "lat" else []) ++
                mid ++
                (if decide ("lon" ∈ ks) then pos_item float (attrib e) "lon" else [])).
Proof.
  revert node mid. induction ks as [|a ks IH]; intros node mid Hnd Hpos H Hmid;
    simpl in H.
  - injection H as <-. rewrite !decide_False by apply not_elem_of_nil.
    by rewrite app_nil_r.
  - apply bind_Ok_inv in H as (node1 & H1 & H2).
    apply NoDup_cons in Hnd as [Ha Hnd].
    apply not_elem_of_cons in Hpos as [Hap Hpos].
    pose proof (classify_attribute_pos _ _ _ _ _ H1 (not_eq_sym Hap) Hmid) as Hmid1.
    rewrite (IH _ _ Hnd Hpos H2 Hmid1). f_equal.
    destruct (decide (a = "lat")) as [->|Hlat];
      [|destruct (decide (a = "lon")) as [->|Hlon]].
    + rewrite (decide_False (P := "lat" = "lon")) by done.
      rewrite (decide_False (P := "lat" ∈ ks)) by done.
      rewrite (decide_True (P := "lat" ∈ "lat" :: ks)) by left.
      rewrite (decide_elem_cons_ne "lon" "lat") by done.
      rewrite app_nil_r. simpl. by rewrite <- app_assoc.
    + rewrite (decide_False (P := "lon" ∈ ks)) by done.
      rewrite (decide_True (P := "lon" ∈ "lon" :: ks)) by left.
      rewrite (decide_elem_cons_ne "lat" "lon") by done.
      by rewrite app_nil_r.
    + rewrite (decide_elem_cons_ne "lat" a), (decide_elem_cons_ne "lon" a) by done.
      simpl. by rewrite app_nil_r.
Qed.

(** The [pos] field after the attribute loop, from a document without one. *)
Lemma attributes_pos_wf e node node' :
  wf_attrib (attrib e) → "pos" ∉ (attrib e).*1 →
  transform_element_attributes float node e = Ok node' →
  node !! "pos" = None →
  node' !! "pos" =
    list_field (pos_item float (attrib e) "lat" ++ pos_item float (attrib e) "lon").
Proof.
  intros Hwf Hpos H Hnone.
  rewrite (attributes_pos _ _ _ _ [] Hwf Hpos H Hnone). f_equal. simpl.
  assert (∀ name, (if decide (name ∈ (attrib e).*1)
                   then pos_item float (attrib e) name else []) =
                  pos_item float (attrib e) name) as Hitem.
  { intros name. case_decide as Hin; [done|].
    apply attrib_get_None in Hin. unfold pos_item. by rewrite Hin. }
  by rewrite !Hitem.
Qed.

(** A coordinate that is not numeric ends the attribute loop. *)
Lemma classify_attribute_fails e node a v :
  a ∈ POSITION → attrib_get (attrib e) a = Some v → float v = None →
  ∃ err, classify_attribute float e node a = Err err.
Proof.
  intros Hpos Hv Hf. unfold classify_attribute, getitem, to_float.
  rewrite Hv. simpl.
  rewrite decide_False
    by (intros Hc; apply CREATED_not_position in Hc as (? & ? & _);
        by destruct (POSITION_cases _ Hpos)).
  rewrite decide_True by done.
  destruct (node !! "pos") as [[?|?|?]|] eqn:E;
    rewrite ?lookup_insert_eq, ?E, ?Hf; case_decide; simpl; eauto.
Qed.

Lemma attributes_fail e ks node a v :
  a ∈ ks → a ∈ POSITION → attrib_get (attrib e) a = Some v → float v = None →
  ∃ err, for_in ks (classify_attribute float e) node = Err err.
Proof.
  intros Hin Hpos Hv Hf. revert node.
  induction ks as [|a' ks IH]; intros node; [by apply elem_of_nil in Hin|].
  simpl. destruct (classify_attribute float e node a') as [node1|err] eqn:E;
    simpl; [|eauto].
  apply elem_of_cons in Hin as [->|Hin]; [|auto].
  destruct (classify_attribute_fails e node a' v) as [err Herr]; try done.
  congruence.
Qed.

(** Without attributes named like the nested fields, a step keeps them
    nested, and the only exception is that of [float]. *)
Lemma classify_attribute_inv e node a :
  attr_inv node → a ≠ "created" → a ≠ "pos" → a ∈ (attrib e).*1 →
  match classify_attribute float e node a with
  | Ok node' => attr_inv node'
  | Err err =>
      err = ValueError ∧ a ∈ POSITION ∧
      ∃ v, attrib_get (attrib e) a = Some v ∧ float v = None
  end.
Proof.
  intros [Hc Hp] Hac Hap Hin.
  destruct (attrib_get_is_Some _ _ Hin) as [v Hv].
  unfold classify_attribute, getitem, to_float, attr_inv. rewrite Hv. simpl.
  destruct (node !! "created") as [[?|?|?]|] eqn:Ec; try done;
    destruct (node !! "pos") as [[?|?|?]|] eqn:Ep; try done;
    repeat case_decide; rewrite ?lookup_insert_eq, ?Ec, ?Ep; simpl;
    try (destruct (float v) eqn:Ef; simpl);
    rewrite ?lookup_insert_eq, ?lookup_insert_ne, ?Ec, ?Ep by done;
    eauto 10.
Qed.

Lemma attributes_inv e ks node :
  attr_inv node → "created" ∉ ks → "pos" ∉ ks → ks ⊆ (attrib e).*1 →
  match for_in ks (classify_attribute float e) node with
  | Ok node' => attr_inv node'
  | Err err =>
      err = ValueError ∧
      ∃ a v, a ∈ ks ∧ a ∈ POSITION ∧ attrib_get (attrib e) a = Some v ∧ float v = None
  end.
Proof.
  revert node. induction ks as [|a ks IH]; intros node Hinv Hc Hp Hsub; [done|].
  apply not_elem_of_cons in Hc as [Hac Hc].
  apply not_elem_of_cons in Hp as [Hap Hp].
  assert (a ∈ (attrib e).*1) as Hin by (apply Hsub; left).
  assert (ks ⊆ (attrib e).*1) as Hsub' by (intros x Hx; apply Hsub; by right).
  pose proof (classify_attribute_inv e node a Hinv (not_eq_sym Hac) (not_eq_sym Hap) Hin) as Hstep.
  simpl. destruct (classify_attribute float e node a) as [node1|err]; simpl.
  - specialize (IH node1 Hstep Hc Hp Hsub').
    destruct (for_in ks _ node1); [done|].
    destruct IH as (-> & a' & v & Ha' & Hrest). split; [done|].
    exists a', v. split; [by right | done].
  - destruct Hstep as (-> & Hpos & v & Hv & Hf). split; [done|].
    exists a, v. split; [left | done].
Qed.

(** *** Children *)

Lemma classify_child_eq node s :
  classify_child node s =
    if decide (tag s = "tag") then transform_tag_elem node s
    else if decide (tag s = "nd") then transform_nd_tag node s
    else Ok node.
Proof.
  unfold classify_child. destruct (decide (tag s = "tag")) as [Ht|Ht]; simpl; [|done].
  rewrite Ht. destruct (transform_tag_elem node s); simpl; [|done].
  by destruct (decide ("tag" = "nd")).
Qed.

Lemma tag_keys_cons key s l :
  key ∉ tag_keys (s :: l) →
  (tag s = "tag" → attrib_get (attrib s) "k" ≠ Some key) ∧ key ∉ tag_keys l.
Proof.
  unfold tag_keys. simpl. destruct (decide (tag s = "tag")) as [Ht|Ht].
  - destruct (attrib_get (attrib s) "k") as [k|]; [|done].
    rewrite not_elem_of_cons. intros [Hne Hl]. split; [|done]. congruence.
  - done.
Qed.

(** A rejected key leaves the document as it is. *)
Lemma transform_tag_elem_rejected node s k v :
  attrib_get (attrib s) "k" = Some k → attrib_get (attrib s) "v" = Some v →
  contains_bad_char k || is_compound_street_address k = true →
  transform_tag_elem node s = Ok node.
Proof.
  intros Hk Hv Hrej. unfold transform_tag_elem, getitem.
  rewrite Hk, Hv. simpl. by rewrite Hrej.
Qed.

(** An accepted [addr:] key is stored under its second segment. *)
Lemma transform_tag_elem_addr node s k v :
  attrib_get (attrib s) "k" = Some k → attrib_get (attrib s) "v" = Some v →
  contains_bad_char k || is_compound_street_address k = false →
  startswith k "addr:" = true →
  dict_or_absent (node !! "address") →
  ∃ key rest, split ":" k = "addr" :: key :: rest ∧
    transform_tag_elem node s =
      Ok (<["address" := VDict (<[key := v]> (address_of node))]> node).
Proof.
  intros Hk Hv Hrej Hpre Haddr.
  destruct (startswith_addr_split _ Hpre) as (key & rest & Hsplit).
  exists key, rest. split; [done|].
  unfold transform_tag_elem, getitem, address_of.
  rewrite Hk, Hv. simpl. rewrite Hrej, Hpre, Hsplit. simpl.
  destruct (node !! "address") as [[?|d|?]|] eqn:E; try done.
  - by rewrite E.
  - rewrite lookup_insert_eq. by rewrite insert_insert_eq.
Qed.

Lemma transform_tag_elem_frame node node' s key :
  transform_tag_elem node s = Ok node' →
  key ≠ "address" → attrib_get (attrib s) "k" ≠ Some key →
  node' !! key = node !! key.
Proof.
  intros H Ha Hk. unfold transform_tag_elem in H.
  run_step H; injection H as <-; rewrite ?lookup_insert_ne; congruence.
Qed.

Lemma transform_nd_tag_frame node node' s key :
  transform_nd_tag node s = Ok node' →
  key ≠ "node_refs" → node' !! key = node !! key.
Proof.
  intros H Hk. unfold transform_nd_tag in H.
  run_step H; injection H as <-; by rewrite ?lookup_insert_ne.
Qed.

Lemma children_frame l node node' key :
  for_in l (classify_child) node = Ok node' →
  key ∉ tag_keys l → key ≠ "address" → key ≠ "node_refs" →
  node' !! key = node !! key.
Proof.
  revert node. induction l as [|s l IH]; simpl; intros node H Hkeys Ha Hn.
  - by injection H as <-.
  - apply bind_Ok_inv in H as (node1 & H1 & H2).
    apply tag_keys_cons in Hkeys as [Hs Hkeys].
    rewrite (IH _ H2 Hkeys Ha Hn).
    rewrite classify_child_eq in H1. repeat case_decide.
    + by apply (transform_tag_elem_frame _ _ _ _ H1); [|apply Hs].
    + by apply (transform_nd_tag_frame _ _ _ _ H1).
    + by injection H1 as <-.
Qed.

(** What an "nd" element adds to [node_refs]. *)
Lemma transform_nd_tag_refs node node' s (acc : list string) :
  transform_nd_tag node s = Ok node' →
  node !! "node_refs" = list_field (AStr <$> acc) →
  ∃ ref, attrib_get (attrib s) "ref" = Some ref ∧
         node' !! "node_refs" = list_field (AStr <$> (acc ++ [ref])).
Proof.
  intros H Hacc. unfold transform_nd_tag in H.
  run_step H; injection H as <-; rewrite lookup_insert_eq;
    destruct acc as [|r acc]; simplify_eq/=; eexists; split; try done.
  by rewrite fmap_app.
Qed.

Lemma children_node_refs l node node' (acc : list string) :
  for_in l (classify_child) node = Ok node' →
  "node_refs" ∉ tag_keys l →
  node !! "node_refs" = list_field (AStr <$> acc) →
  node' !! "node_refs" = list_field (AStr <$> (acc ++ nd_refs l)).
Proof.
  revert node acc. induction l as [|s l IH]; intros node acc H Hkeys Hacc; simpl in H.
  - injection H as <-. by rewrite app_nil_r.
  - apply bind_Ok_inv in H as (node1 & H1 & H2).
    apply tag_keys_cons in Hkeys as [Hs Hkeys].
    rewrite classify_child_eq in H1. unfold nd_refs. simpl. fold (nd_refs l).
    destruct (decide (tag s = "tag")) as [Ht|Ht].
    + rewrite decide_False by (rewrite Ht; done).
      apply (IH _ _ H2 Hkeys). rewrite <- Hacc.
      by apply (transform_tag_elem_frame _ _ _ _ H1); [|apply Hs].
    + destruct (decide (tag s = "nd")) as [Hn|Hn].
      * destruct (transform_nd_tag_refs _ _ _ _ H1 Hacc) as (ref & Href & Hacc1).
        rewrite Href. rewrite (IH _ _ H2 Hkeys Hacc1). by rewrite <- app_assoc.
      * injection H1 as <-. by apply (IH _ _ H2 Hkeys).
Qed.

(** When the child loop returns, every "nd" element had a [ref]. *)
Lemma children_nd_refs_nil l node node' :
  for_in l (classify_child) node = Ok node' →
  nd_refs l = [] ↔ ∀ s, s ∈ l → tag s ≠ "nd".
Proof.
  revert node. induction l as [|s l IH]; intros node H; simpl in H.
  - split; [|done]. intros _ s Hs. by apply elem_of_nil in Hs.
  - apply bind_Ok_inv in H as (node1 & H1 & H2).
    specialize (IH _ H2). unfold nd_refs. simpl. fold (nd_refs l).
    rewrite classify_child_eq in H1.
    destruct (decide (tag s = "nd")) as [Hn|Hn].
    + rewrite decide_False in H1 by (rewrite Hn; done).
      unfold transform_nd_tag, getitem in H1.
      destruct (attrib_get (attrib s) "ref"); [|done].
      split; [done|]. intros Hall. exfalso. apply (Hall s); [left | done].
    + rewrite IH. split.
      * intros Hall s' Hs'. apply elem_of_cons in Hs' as [->|Hs']; auto.
      * intros Hall s' Hs'. apply Hall. by right.
Qed.

Lemma transform_tag_elem_inv node s k v :
  child_inv node →
  attrib_get (attrib s) "k" = Some k → attrib_get (attrib s) "v" = Some v →
  k ≠ "address" → k ≠ "node_refs" →
  ∃ node', transform_tag_elem node s = Ok node' ∧ child_inv node'.
Proof.
  intros [Ha Hn] Hk Hv Hka Hkn.
  destruct (contains_bad_char k || is_compound_street_address k) eqn:Hrej.
  { exists node. split; [by eapply transform_tag_elem_rejected | done]. }
  destruct (startswith k "addr:") eqn:Hpre.
  - destruct (transform_tag_elem_addr node s k v) as (key & rest & _ & ->); try done.
    eexists. split; [done|]. unfold child_inv.
    rewrite lookup_insert_eq, lookup_insert_ne by done. done.
  - unfold transform_tag_elem, getitem. rewrite Hk, Hv. simpl. rewrite Hrej, Hpre.
    eexists. split; [done|]. unfold child_inv.
    by rewrite !lookup_insert_ne by done.
Qed.

Lemma transform_nd_tag_inv node s :
  child_inv node → is_Some (attrib_get (attrib s) "ref") →
  ∃ node', transform_nd_tag node s = Ok node' ∧ child_inv node'.
Proof.
  intros [Ha Hn] [ref Href]. unfold transform_nd_tag, getitem, child_inv.
  rewrite Href. simpl.
  destruct (node !! "node_refs") as [[?|?|?]|] eqn:E; try done;
    eexists; (split; [done|]);
    by rewrite lookup_insert_eq, lookup_insert_ne.
Qed.

Lemma children_inv l node :
  child_inv node →
  (∀ s, s ∈ l → tag s = "tag" →
     ∃ k v, attrib_get (attrib s) "k" = Some k ∧ attrib_get (attrib s) "v" = Some v ∧
            k ∉ ["address"; "node_refs"]) →
  (∀ s, s ∈ l → tag s = "nd" → is_Some (attrib_get (attrib s) "ref")) →
  ∃ node', for_in l (classify_child) node = Ok node' ∧ child_inv node'.
Proof.
  revert node. induction l as [|s l IH]; intros node Hinv Htag Hnd; simpl; [eauto|].
  assert (∃ node1, classify_child node s = Ok node1 ∧ child_inv node1)
    as (node1 & -> & Hinv1).
  { rewrite classify_child_eq. repeat case_decide.
    - destruct (Htag s) as (k & v & Hk & Hv & Hres); [left | done |].
      apply (transform_tag_elem_inv node s k v); try done;
        intros ->; apply Hres; rewrite !elem_of_cons; tauto.
    - apply transform_nd_tag_inv; [done|]. apply Hnd; [left | done].
    - eauto. }
  simpl. apply IH; [done| |].
  - intros s' Hs'. apply Htag. by right.
  - intros s' Hs'. apply Hnd. by right.
Qed.

(** *** The whole of [shape_element] *)

Lemma shape_element_not_accepted e :
  ¬ accepted e → shape_element float e = Ok None.
Proof. intros H. unfold shape_element. by rewrite decide_False. Qed.

Lemma shape_element_accepted e :
  accepted e →
  shape_element float e =
    node ← transform_element_attributes float (<["type" := VStr (tag e)]> ∅) e;
    node ← transform_sub_elem_attributes node e;
    Ok (Some node).
Proof. intros H. unfold shape_element. by rewrite decide_True. Qed.

(** A returned document went through both loops. *)
Lemma shape_element_inv e d :
  shape_element float e = Ok (Some d) →
  accepted e ∧
  ∃ node1,
    transform_element_attributes float (<["type" := VStr (tag e)]> ∅) e = Ok node1 ∧
    transform_sub_elem_attributes node1 e = Ok d.
Proof.
  intros H. destruct (decide (accepted e)) as [Hacc|Hacc].
  - split; [done|]. rewrite shape_element_accepted in H by done.
    apply bind_Ok_inv in H as (node1 & H1 & H).
    apply bind_Ok_inv in H as (node2 & H2 & H).
    injection H as <-. eauto.
  - rewrite shape_element_not_accepted in H by done. discriminate.
Qed.

Lemma tag_keys_elem l s k :
  s ∈ l → tag s = "tag" → attrib_get (attrib s) "k" = Some k → k ∈ tag_keys l.
Proof.
  intros Hs Ht Hk. unfold tag_keys. apply list_elem_of_omap.
  exists s. split; [done|]. by rewrite decide_True.
Qed.

Lemma numeric_coordinates_float d a v :
  numeric_coordinates float d = true → a ∈ POSITION →
  attrib_get d a = Some v → is_Some (float v).
Proof.
  intros Hnum Hpos Hv. apply attrib_get_Some_elem in Hv.
  unfold numeric_coordinates in Hnum. rewrite forallb_forall in Hnum.
  apply list_elem_of_In in Hv. specialize (Hnum _ Hv). simpl in Hnum.
  rewrite decide_True in Hnum by done. by destruct (float v).
Qed.

(** On well-shaped input both loops return. *)
Lemma shape_element_returns e :
  accepted e → well_shaped float e → ∃ d, shape_element float e = Ok (Some d).
Proof.
  intros Hacc (Hnum & Hcomplete & (Hc & Hp & Ha & Hn) & (Hta & Htn)).
  rewrite shape_element_accepted by done.
  unfold transform_element_attributes.
  pose proof (attributes_inv e (attrib e).*1 (<["type" := VStr (tag e)]> ∅)) as Hattr.
  destruct (for_in _ _ _) as [node1|err] eqn:E1.
  - simpl. unfold transform_sub_elem_attributes.
    destruct (children_inv (getiterator e) node1) as (d & -> & _); [| | |by eauto].
    + split.
      * rewrite (attributes_frame _ _ _ _ "address" E1) by done. done.
      * rewrite (attributes_frame _ _ _ _ "node_refs" E1) by done. done.
    + intros s Hs Ht. rewrite forallb_forall in Hcomplete.
      apply list_elem_of_In in Hs as Hs'. specialize (Hcomplete _ Hs').
      unfold complete_child in Hcomplete. rewrite decide_True in Hcomplete by done.
      destruct (attrib_get (attrib s) "k") as [k|] eqn:Hk; [|done].
      destruct (attrib_get (attrib s) "v") as [v|] eqn:Hv; [|done].
      exists k, v. repeat split; try done.
      rewrite !not_elem_of_cons. repeat split; [| |apply not_elem_of_nil];
        intros ->; [apply Hta | apply Htn]; by eapply tag_keys_elem.
    + intros s Hs Ht. rewrite forallb_forall in Hcomplete.
      apply list_elem_of_In in Hs as Hs'. specialize (Hcomplete _ Hs').
      unfold complete_child in Hcomplete.
      rewrite decide_False, decide_True in Hcomplete by (rewrite ?Ht; done).
      by destruct (attrib_get (attrib s) "ref").
  - exfalso. destruct Hattr as (_ & a & v & Hin & Hpos & Hv & Hf); try done.
    destruct (numeric_coordinates_float _ _ _ Hnum Hpos Hv) as [x Hx]. congruence.
Qed.

(** The [node_refs] field of a returned document. *)
Lemma shape_element_refs_field e d :
  "node_refs" ∉ (attrib e).*1 → "node_refs" ∉ tag_keys (getiterator e) →
  shape_element float e = Ok (Some d) →
  d !! "node_refs" = list_field (AStr <$> nd_refs (getiterator e)) ∧
  (nd_refs (getiterator e) = [] ↔ ∀ s, s ∈ getiterator e → tag s ≠ "nd").
Proof.
  intros Hattr Htags H. apply shape_element_inv in H as (_ & node1 & H1 & H2).
  split; [|by eapply children_nd_refs_nil].
  apply (children_node_refs _ _ _ [] H2 Htags). simpl.
  by rewrite (attributes_frame _ _ _ _ "node_refs" H1).
Qed.

(** The [pos] field of a returned document. *)
Lemma shape_element_pos_field e d :
  wf_attrib (attrib e) →
  "pos" ∉ (attrib e).*1 → "pos" ∉ tag_keys (getiterator e) →
  shape_element float e = Ok (Some d) →
  d !! "pos" =
    list_field (pos_item float (attrib e) "lat" ++ pos_item float (attrib e) "lon").
Proof.
  intros Hwf Hattr Htags H. apply shape_element_inv in H as (_ & node1 & H1 & H2).
  rewrite (children_frame _ _ _ "pos" H2) by done.
  by apply (attributes_pos_wf e _ _ Hwf Hattr H1).
Qed.

(** In a returned document the coordinates were numeric. *)
Lemma shape_element_coordinates e d a v :
  shape_element float e = Ok (Some d) →
  a ∈ POSITION → attrib_get (attrib e) a = Some v → is_Some (float v).
Proof.
  intros H Hpos Hv. apply shape_element_inv in H as (_ & node1 & H1 & _).
  destruct (float v) as [x|] eqn:Hf; [eauto|].
  destruct (attributes_fail e (attrib e).*1 (<["type" := VStr (tag e)]> ∅) a v)
    as [err Herr]; try done.
  - apply attrib_get_Some_elem in Hv. apply list_elem_of_fmap. by exists (a, v).
  - unfold transform_element_attributes in H1. congruence.
Qed.

(** ** The properties of the specification *)

(** C1 (amended).  An element whose tag name is neither "node" nor "way" is
    shaped to null, without error.  An element whose tag name is "node" or
    "way" is never shaped to null: [shape_element] returns a document or
    raises, and it returns a document on every well-shaped element. *)
Theorem shape_element_null_iff_not_accepted e :
  (¬ accepted e → shape_element float e = Ok None) ∧
  (accepted e →
     (∃ d, shape_element float e = Ok (Some d)) ∨
     (∃ err, shape_element float e = Err err)) ∧
  (accepted e → well_shaped float e → ∃ d, shape_element float e = Ok (Some d)).
Proof.
  split; [apply shape_element_not_accepted|].
  split; [|apply shape_element_returns].
  intros Hacc. rewrite shape_element_accepted by done.
  destruct (transform_element_attributes _ _ _) as [node1|err]; simpl; [|eauto].
  destruct (transform_sub_elem_attributes _ _) as [node2|err]; simpl; eauto.
Qed.

(** C2 (amended).  For an accepted element whose attributes hold a numeric
    [lat] and a numeric [lon], in whatever order the attributes are met,
    and that has no attribute and no tag key named [pos], the [pos] field of
    the returned document is the pair [float(lat), float(lon)]. *)
Theorem shape_element_pos_lat_lon e d lat lon x y :
  wf_attrib (attrib e) →
  ("lat", lat) ∈ attrib e → ("lon", lon) ∈ attrib e →
  float lat = Some x → float lon = Some y →
  "pos" ∉ (attrib e).*1 → "pos" ∉ tag_keys (getiterator e) →
  shape_element float e = Ok (Some d) →
  accepted e ∧ d !! "pos" = Some (VList [AFloat x; AFloat y]).
Proof.
  intros Hwf Hlat Hlon Hx Hy Hattr Htags H.
  split; [by apply shape_element_inv in H as [? _]|].
  rewrite (shape_element_pos_field e d) by done.
  unfold pos_item.
  rewrite (attrib_get_wf _ _ _ Hwf Hlat), (attrib_get_wf _ _ _ Hwf Hlon).
  simpl. by rewrite Hx, Hy.
Qed.

(** C3.  A "tag" child with [k] and [v] whose key holds a problematic
    character, or splits on ':' into more than two segments of which the
    second is "street", leaves the document as it is, and the child loop
    runs as if the child were not there.  Every [addr:street:...] key is
    dropped in this way; [addr:street] itself is not rejected, and is
    stored as the entry street of [address]. *)
Theorem rejected_tag_child_dropped :
  (∀ (node : gmap string (pyval F)) sub k v,
     attrib_get (attrib sub) "k" = Some k → attrib_get (attrib sub) "v" = Some v →
     (∃ c, c ∈ String.list_ascii_of_string k ∧ c ∈ PROBLEM_CHARS) ∨
     (2 < length (split ":" k) ∧ split ":" k !! 1 = Some "street") →
     transform_tag_elem node sub = Ok node ∧
     (tag sub = "tag" → ∀ l1 l2 (node0 : gmap string (pyval F)),
        for_in (l1 ++ sub :: l2) classify_child node0 =
        for_in (l1 ++ l2) classify_child node0)) ∧
  (∀ (node : gmap string (pyval F)) rest v,
     transform_tag_elem node (mk_tag ("addr:street:" +:+ rest) v) = Ok node) ∧
  (contains_bad_char "addr:street" || is_compound_street_address "addr:street" = false) ∧
  (∀ (node : gmap string (pyval F)) v,
     dict_or_absent (node !! "address") →
     transform_tag_elem node (mk_tag "addr:street" v) =
       Ok (<["address" := VDict (<["street" := v]> (address_of node))]> node)).
Proof.
  assert (∀ (node : gmap string (pyval F)) sub k v,
     attrib_get (attrib sub) "k" = Some k → attrib_get (attrib sub) "v" = Some v →
     (∃ c, c ∈ String.list_ascii_of_string k ∧ c ∈ PROBLEM_CHARS) ∨
     (2 < length (split ":" k) ∧ split ":" k !! 1 = Some "street") →
     transform_tag_elem node sub = Ok node) as Hdrop.
  { intros node sub k v Hk Hv Hrej.
    apply (transform_tag_elem_rejected node sub k v Hk Hv).
    apply orb_true_iff.
    destruct Hrej as [Hbad|Hstreet];
      [left; by apply contains_bad_char_spec
      |right; by apply is_compound_street_address_spec]. }
  repeat split.
  - eauto.
  - intros Ht l1 l2 node0. rewrite !for_in_app.
    destruct (for_in l1 classify_child node0) as [node1|err]; simpl; [|done].
    rewrite classify_child_eq, decide_True by done.
    by rewrite (Hdrop node1 sub k v).
  - intros node rest v.
    apply (Hdrop node _ ("addr:street:" +:+ rest) v); [done..|].
    right. simpl.
    destruct (split ":" _) eqn:E; [by apply split_nonempty in E|].
    simpl. split; [lia | done].
  - intros node v Haddr.
    destruct (transform_tag_elem_addr node (mk_tag "addr:street" v) "addr:street" v)
      as (key & rest & Hsplit & ->); try done.
    by injection Hsplit as <- <-.
Qed.

(** C4 (amended).  For an accepted "tag" child whose key starts with
    [addr:], processed on a document whose [address] is absent or a
    mapping, the [address] mapping (created when absent) gains the entry
    address[key] = v, where key is the second ':'-delimited segment of k;
    the value is the string v. *)
Theorem addr_tag_child_stored (node : gmap string (pyval F)) sub k v :
  attrib_get (attrib sub) "k" = Some k → attrib_get (attrib sub) "v" = Some v →
  contains_bad_char k = false → is_compound_street_address k = false →
  startswith k "addr:" = true →
  dict_or_absent (node !! "address") →
  ∃ key node',
    split ":" k !! 1 = Some key ∧
    transform_tag_elem node sub = Ok node' ∧
    node' = <["address" := VDict (<[key := v]> (address_of node))]> node ∧
    address_of node' !! key = Some v.
Proof.
  intros Hk Hv Hbad Hstreet Hpre Haddr.
  destruct (transform_tag_elem_addr node sub k v) as (key & rest & Hsplit & Hres);
    try done.
  { by rewrite Hbad, Hstreet. }
  exists key. eexists. repeat split; try done.
  - by rewrite Hsplit.
  - unfold address_of at 1. by rewrite !lookup_insert_eq.
Qed.

(** C5 (amended).  For an accepted element with no attribute and no tag
    key named [node_refs], the [node_refs] field of the returned document is
    the sequence of the [ref] values of its "nd" descendants in document
    order, as strings, duplicates retained; it is absent exactly when
    there is no "nd" descendant. *)
Theorem shape_element_node_refs e d :
  "node_refs" ∉ (attrib e).*1 → "node_refs" ∉ tag_keys (getiterator e) →
  shape_element float e = Ok (Some d) →
  d !! "node_refs" = list_field (AStr <$> nd_refs (getiterator e)) ∧
  (d !! "node_refs" = None ↔ nd_refs (getiterator e) = []).
Proof.
  intros Hattr Htags H.
  destruct (shape_element_refs_field e d Hattr Htags H) as [-> _].
  split; [done|]. by destruct (nd_refs (getiterator e)).
Qed.

(** C6 (amended).  For an accepted element with no attribute and no tag
    key named [type], the [type] field of the returned document is the tag
    name of the element, "node" or "way". *)
Theorem shape_element_type e d :
  "type" ∉ (attrib e).*1 → "type" ∉ tag_keys (getiterator e) →
  shape_element float e = Ok (Some d) →
  d !! "type" = Some (VStr (tag e)) ∧ (tag e = "node" ∨ tag e = "way").
Proof.
  intros Hattr Htags H. apply shape_element_inv in H as (Hacc & node1 & H1 & H2).
  split; [|done].
  rewrite (children_frame _ _ _ "type" H2) by done.
  rewrite (attributes_frame _ _ _ _ "type" H1) by done.
  apply lookup_insert_eq.
Qed.

(** C7 (amended).  For an accepted element with no attribute and no tag
    key named [pos], a [pos] field of the returned document is a list of
    floats: float(lat) when there is a [lat] attribute, then float(lon)
    when there is a [lon] attribute.  It has one or two items, and exactly
    two, in the order [lat, lon], when both attributes are there. *)
Theorem shape_element_pos_items e d v :
  wf_attrib (attrib e) →
  "pos" ∉ (attrib e).*1 → "pos" ∉ tag_keys (getiterator e) →
  shape_element float e = Ok (Some d) →
  d !! "pos" = Some v →
  ∃ l, v = VList l ∧
    l = pos_item float (attrib e) "lat" ++ pos_item float (attrib e) "lon" ∧
    (∀ item, item ∈ l → ∃ x, item = AFloat x) ∧
    (1 ≤ length l ≤ 2)%nat ∧
    (length l = 2 ↔ "lat" ∈ (attrib e).*1 ∧ "lon" ∈ (attrib e).*1).
Proof.
  intros Hwf Hattr Htags H Hv.
  rewrite (shape_element_pos_field e d Hwf Hattr Htags H) in Hv.
  assert (∀ name, name ∈ POSITION →
            (name ∈ (attrib e).*1 ∧ ∃ x, pos_item float (attrib e) name = [AFloat x]) ∨
            ((name ∉ (attrib e).*1) ∧ pos_item float (attrib e) name = [])) as Hitem.
  { intros name Hpos. unfold pos_item.
    destruct (attrib_get (attrib e) name) as [s|] eqn:Hs; simpl.
    - destruct (shape_element_coordinates e d name s H Hpos Hs) as [x ->].
      left. split; [|eauto].
      apply attrib_get_Some_elem in Hs. apply list_elem_of_fmap. by exists (name, s).
    - right. split; [by apply attrib_get_None | done]. }
  destruct (Hitem "lat") as [[Hlat [x Hx]]|[Hlat Hx]]; [compute_done| |];
    destruct (Hitem "lon") as [[Hlon [y Hy]]|[Hlon Hy]]; try compute_done;
    rewrite Hx, Hy in *; simpl in Hv; simplify_eq;
    eexists; (split; [done|]); (split; [done|]); simpl;
    (split; [|split; [lia|]]).
  - intros item. rewrite !elem_of_cons, elem_of_nil. intros [->|[->|[]]]; eauto.
  - done.
  - intros item. rewrite !elem_of_cons, elem_of_nil. intros [->|[]]; eauto.
  - split; [lia | by intros [_ ?]].
  - intros item. rewrite !elem_of_cons, elem_of_nil. intros [->|[]]; eauto.
  - split; [lia | by intros [? _]].
Qed.

(** C8 (amended).  [node_refs] follows the "nd" descendants, not the tag
    name: for a "node" element with no attribute and no tag key named
    [node_refs], the returned document has no [node_refs] key exactly when
    the element has no "nd" descendant. *)
Theorem shape_element_node_without_refs e d :
  tag e = "node" →
  "node_refs" ∉ (attrib e).*1 → "node_refs" ∉ tag_keys (getiterator e) →
  shape_element float e = Ok (Some d) →
  d !! "node_refs" = None ↔ ∀ s, s ∈ getiterator e → tag s ≠ "nd".
Proof.
  intros _ Hattr Htags H.
  destruct (shape_element_refs_field e d Hattr Htags H) as [-> <-].
  by destruct (nd_refs (getiterator e)).
Qed.

(** C9 (amended).  For an accepted element with a [lat] or [lon] attribute
    whose value is not numeric, [shape_element] raises and returns no
    document; the exception is that of [float], a ValueError, when no
    attribute is named [created] or [pos]. *)
Theorem shape_element_bad_coordinate e a v :
  accepted e → wf_attrib (attrib e) →
  (a, v) ∈ attrib e → a ∈ POSITION → float v = None →
  (∃ err, shape_element float e = Err err) ∧
  ("created" ∉ (attrib e).*1 → "pos" ∉ (attrib e).*1 →
   shape_element float e = Err ValueError).
Proof.
  intros Hacc Hwf Hin Hpos Hf. rewrite shape_element_accepted by done.
  unfold transform_element_attributes.
  assert (a ∈ (attrib e).*1) as Hkey by (apply list_elem_of_fmap; by exists (a, v)).
  destruct (attributes_fail e (attrib e).*1 (<["type" := VStr (tag e)]> ∅) a v)
    as [err Herr]; try done; [by apply attrib_get_wf|].
  rewrite Herr. simpl. split; [eauto|]. intros Hc Hp.
  pose proof (attributes_inv e (attrib e).*1 (<["type" := VStr (tag e)]> ∅)) as Hinv.
  rewrite Herr in Hinv. by destruct Hinv as [-> _].
Qed.
End Properties.

(** ** The embedding on the sample elements *)

Example shape_ex_node : shape_element decimal_float ex_node = Ok (Some ex_node_doc).
Proof. vm_compute. reflexivity. Qed.

Example shape_ex_node_lon_first :
  shape_element decimal_float ex_node_lon_first = Ok (Some ex_node_lon_first_doc).
Proof. vm_compute. reflexivity. Qed.

Example shape_ex_way : shape_element decimal_float ex_way = Ok (Some ex_way_doc).
Proof. vm_compute. reflexivity. Qed.

Example shape_ex_relation : shape_element decimal_float ex_relation = Ok None.
Proof. vm_compute. reflexivity. Qed.

Example shape_ex_node_lat_only :
  shape_element decimal_float ex_node_lat_only = Ok (Some ex_node_lat_only_doc).
Proof. vm_compute. reflexivity. Qed.

Example shape_ex_node_pos_tag :
  shape_element decimal_float ex_node_pos_tag = Ok (Some ex_node_pos_tag_doc).
Proof. vm_compute. reflexivity. Qed.

Example shape_ex_way_type_tag :
  shape_element decimal_float ex_way_type_tag = Ok (Some ex_way_type_tag_doc).
Proof. vm_compute. reflexivity. Qed.

Example shape_ex_way_refs_tag :
  shape_element decimal_float ex_way_refs_tag = Ok (Some ex_way_refs_tag_doc).
Proof. vm_compute. reflexivity. Qed.

Example shape_ex_node_with_nd :
  shape_element decimal_float ex_node_with_nd = Ok (Some ex_node_with_nd_doc).
Proof. vm_compute. reflexivity. Qed.

(** ** The properties on the sample elements *)

Lemma shape_element_null_iff_not_accepted_witness :
  shape_element decimal_float ex_relation = Ok None ∧
  ∃ d, shape_element decimal_float ex_way = Ok (Some d).
Proof.
  split.
  - apply (proj1 (shape_element_null_iff_not_accepted decimal_float ex_relation)).
    unfold accepted. simpl. intros [H|H]; discriminate H.
  - apply (proj2 (proj2 (shape_element_null_iff_not_accepted decimal_float ex_way))).
    + right. reflexivity.
    + repeat split; compute_done.
Defined.

Lemma shape_element_pos_lat_lon_witness :
  accepted ex_node_lon_first ∧
  ex_node_lon_first_doc !! "pos" = Some (VList [AFloat ex_lat; AFloat ex_lon]).
Proof.
  apply (shape_element_pos_lat_lon decimal_float ex_node_lon_first
           ex_node_lon_first_doc "41.9730791" "-87.6866303" ex_lat ex_lon).
  - compute_done.
  - compute_done.
  - compute_done.
  - vm_compute. reflexivity.
  - vm_compute. reflexivity.
  - compute_done.
  - compute_done.
  - vm_compute. reflexivity.
Defined.

Lemma rejected_tag_child_dropped_witness :
  transform_tag_elem ex_way_doc (mk_tag "addr:street:name" "Lincoln") = Ok ex_way_doc ∧
  transform_tag_elem ex_way_doc (mk_tag "opening hours" "24/7") = Ok ex_way_doc.
Proof.
  split.
  - apply (proj1 rejected_tag_child_dropped ex_way_doc
             (mk_tag "addr:street:name" "Lincoln") "addr:street:name" "Lincoln").
    + reflexivity.
    + reflexivity.
    + right. split; [vm_compute; lia | reflexivity].
  - apply (proj1 rejected_tag_child_dropped ex_way_doc
             (mk_tag "opening hours" "24/7") "opening hours" "24/7").
    + reflexivity.
    + reflexivity.
    + left. exists " "%char. split; compute_done.
Defined.

Lemma addr_tag_child_stored_witness :
  ∃ key node',
    split ":" "addr:city:en" !! 1 = Some key ∧
    transform_tag_elem ex_node_doc (mk_tag "addr:city:en" "Chicago") = Ok node' ∧
    node' = <["address" := VDict (<[key := "Chicago"]> (address_of ex_node_doc))]> ex_node_doc ∧
    address_of node' !! key = Some "Chicago".
Proof.
  apply (addr_tag_child_stored ex_node_doc (mk_tag "addr:city:en" "Chicago")
           "addr:city:en" "Chicago").
  - reflexivity.
  - reflexivity.
  - vm_compute. reflexivity.
  - vm_compute. reflexivity.
  - vm_compute. reflexivity.
  - vm_compute. exact I.
Defined.

Lemma shape_element_node_refs_witness :
  ex_way_doc !! "node_refs" =
    Some (VList [AStr "305896090"; AStr "1719825889"; AStr "305896090"]).
Proof.
  apply (proj1 (shape_element_node_refs decimal_float ex_way ex_way_doc
                  ltac:(compute_done) ltac:(compute_done)
                  ltac:(vm_compute; reflexivity))).
Defined.

Lemma shape_element_type_witness :
  ex_way_doc !! "type" = Some (VStr "way") ∧ (tag ex_way = "node" ∨ tag ex_way = "way").
Proof.
  apply (shape_element_type decimal_float ex_way ex_way_doc).
  - compute_done.
  - compute_done.
  - vm_compute. reflexivity.
Defined.

Lemma shape_element_pos_items_witness :
  ∃ l, VList [AFloat ex_lat; AFloat ex_lon] = VList l ∧
    l = pos_item decimal_float (attrib ex_node) "lat" ++
        pos_item decimal_float (attrib ex_node) "lon" ∧
    (∀ item, item ∈ l → ∃ x, item = AFloat x) ∧
    (1 ≤ length l ≤ 2)%nat ∧
    (length l = 2 ↔ "lat" ∈ (attrib ex_node).*1 ∧ "lon" ∈ (attrib ex_node).*1).
Proof.
  apply (shape_element_pos_items decimal_float ex_node ex_node_doc).
  - compute_done.
  - compute_done.
  - compute_done.
  - vm_compute. reflexivity.
  - vm_compute. reflexivity.
Defined.

Lemma shape_element_node_without_refs_witness :
  ex_node_doc !! "node_refs" = None ↔ ∀ s, s ∈ getiterator ex_node → tag s ≠ "nd".
Proof.
  apply (shape_element_node_without_refs decimal_float ex_node ex_node_doc).
  - reflexivity.
  - compute_done.
  - compute_done.
  - vm_compute. reflexivity.
Defined.

Lemma shape_element_bad_coordinate_witness :
  (∃ err, shape_element decimal_float ex_node_bad_lat = Err err) ∧
  ("created" ∉ (attrib ex_node_bad_lat).*1 → "pos" ∉ (attrib ex_node_bad_lat).*1 →
   shape_element decimal_float ex_node_bad_lat = Err ValueError).
Proof.
  apply (shape_element_bad_coordinate decimal_float ex_node_bad_lat "lat" "north").
  - left. reflexivity.
  - compute_done.
  - compute_done.
  - compute_done.
  - vm_compute. reflexivity.
Defined.

(** ** Where the specification and the code part *)

(** C1: an accepted element on which [shape_element] returns no document. *)
Lemma shape_element_accepted_raises :
  accepted ex_node_bad_lat ∧
  decimal_float "north" = None ∧
  ¬ ∃ d, shape_element decimal_float ex_node_bad_lat = Ok (Some d).
Proof.
  split; [by left|]. split; [reflexivity|].
  intros [d Hd]. vm_compute in Hd. discriminate Hd.
Qed.

(** C2: numeric [lat] and [lon], and a [pos] that is not their pair. *)
Lemma shape_element_pos_overwritten :
  accepted ex_node_pos_tag ∧
  attrib_get (attrib ex_node_pos_tag) "lat" ≫= decimal_float = Some ex_lat ∧
  attrib_get (attrib ex_node_pos_tag) "lon" ≫= decimal_float = Some ex_lon ∧
  shape_element decimal_float ex_node_pos_tag = Ok (Some ex_node_pos_tag_doc) ∧
  ex_node_pos_tag_doc !! "pos" = Some (VStr "here") ∧
  ex_node_pos_tag_doc !! "pos" ≠ Some (VList [AFloat ex_lat; AFloat ex_lon]).
Proof.
  split; [by left|]. repeat split; try (vm_compute; reflexivity).
  vm_compute. discriminate.
Qed.

(** C4: an accepted [addr:] key, met when [address] is a string. *)
Lemma addr_tag_child_on_string_address :
  contains_bad_char "addr:street" = false ∧
  is_compound_street_address "addr:street" = false ∧
  startswith "addr:street" "addr:" = true ∧
  transform_tag_elem (F := Decimal.decimal)
    (<["address" := VStr "5158 North Lincoln Avenue"]> ∅)
    (mk_tag "addr:street" "North Lincoln Avenue") = Err TypeError ∧
  shape_element decimal_float ex_node_address_tag = Err TypeError.
Proof. repeat split; vm_compute; reflexivity. Qed.

(** C5: two "nd" children, and a [node_refs] that is not their references. *)
Lemma shape_element_node_refs_overwritten :
  accepted ex_way_refs_tag ∧
  nd_refs (getiterator ex_way_refs_tag) = ["1"; "2"] ∧
  shape_element decimal_float ex_way_refs_tag = Ok (Some ex_way_refs_tag_doc) ∧
  ex_way_refs_tag_doc !! "node_refs" = Some (VStr "none") ∧
  ex_way_refs_tag_doc !! "node_refs" ≠ Some (VList [AStr "1"; AStr "2"]).
Proof.
  split; [by right|]. repeat split; try (vm_compute; reflexivity).
  vm_compute. discriminate.
Qed.

(** C6: a way whose [type] is not "way". *)
Lemma shape_element_type_overwritten :
  accepted ex_way_type_tag ∧
  shape_element decimal_float ex_way_type_tag = Ok (Some ex_way_type_tag_doc) ∧
  ex_way_type_tag_doc !! "type" = Some (VStr "multipolygon") ∧
  ex_way_type_tag_doc !! "type" ≠ Some (VStr (tag ex_way_type_tag)).
Proof.
  split; [by right|]. repeat split; try (vm_compute; reflexivity).
  vm_compute. discriminate.
Qed.

(** C7: a [pos] of one item. *)
Lemma shape_element_pos_single :
  accepted ex_node_lat_only ∧
  shape_element decimal_float ex_node_lat_only = Ok (Some ex_node_lat_only_doc) ∧
  ex_node_lat_only_doc !! "pos" = Some (VList [AFloat ex_lat]) ∧
  ∀ l, ex_node_lat_only_doc !! "pos" = Some (VList l) → length l ≠ 2.
Proof.
  split; [by left|]. repeat split; try (vm_compute; reflexivity).
  intros l Hl. vm_compute in Hl. injection Hl as <-. simpl. lia.
Qed.

(** C8: a node with a [node_refs] key. *)
Lemma shape_element_node_with_refs :
  tag ex_node_with_nd = "node" ∧
  shape_element decimal_float ex_node_with_nd = Ok (Some ex_node_with_nd_doc) ∧
  ex_node_with_nd_doc !! "node_refs" = Some (VList [AStr "305896090"]).
Proof. repeat split; vm_compute; reflexivity. Qed.

(** C9: a [lat] that is not numeric, and an exception that is not that of
    [float]. *)
Lemma shape_element_bad_coordinate_other_error :
  accepted ex_node_pos_attr ∧
  attrib_get (attrib ex_node_pos_attr) "lat" = Some "north" ∧
  decimal_float "north" = None ∧
  shape_element decimal_float ex_node_pos_attr = Err AttributeError ∧
  shape_element decimal_float ex_node_pos_attr ≠ Err ValueError.
Proof.
  split; [by left|]. repeat split; try (vm_compute; reflexivity).
  vm_compute. discriminate.
Qed.

(** * Beyond the specification's properties *)

(** ** split and join *)

Lemma append_nil_l (t : string) : "" +:+ t = t.
Proof. reflexivity. Qed.

Lemma append_cons (c : ascii) (s t : string) : String c s +:+ t = String c (s +:+ t).
Proof. reflexivity. Qed.

Lemma append_nil_r (s : string) : s +:+ "" = s.
Proof. induction s as [|c s IH]; [done|]. by rewrite append_cons, IH. Qed.

Lemma append_assoc (s t u : string) : (s +:+ t) +:+ u = s +:+ (t +:+ u).
Proof. induction s as [|c s IH]; [done|]. by rewrite !append_cons, IH. Qed.

Lemma split_cons_sep sep s : split sep (String sep s) = "" :: split sep s.
Proof. simpl. by rewrite Ascii.eqb_refl. Qed.

Lemma split_cons_other sep c s :
  c ≠ sep →
  ∃ seg segs, split sep s = seg :: segs ∧ split sep (String c s) = String c seg :: segs.
Proof.
  intros Hne. simpl. apply Ascii.eqb_neq in Hne. rewrite Hne.
  destruct (split sep s) as [|seg segs] eqn:E; [by apply split_nonempty in E|].
  eauto.
Qed.

(** No segment holds the separator. *)
Lemma split_sep_free sep s seg :
  seg ∈ split sep s → sep ∉ String.list_ascii_of_string seg.
Proof.
  revert seg. induction s as [|c s IH]; intros seg Hin.
  - simpl in Hin. apply list_elem_of_singleton in Hin as ->. apply not_elem_of_nil.
  - destruct (decide (c = sep)) as [->|Hne].
    + rewrite split_cons_sep in Hin. apply elem_of_cons in Hin as [->|Hin]; [|auto].
      apply not_elem_of_nil.
    + destruct (split_cons_other sep c s Hne) as (h & t & Hs & Hcs).
      rewrite Hcs in Hin. apply elem_of_cons in Hin as [->|Hin].
      * simpl. apply not_elem_of_cons. split; [done|].
        apply IH. rewrite Hs. left.
      * apply IH. rewrite Hs. by right.
Qed.

(** Joining the segments with the separator gives the string back. *)
Lemma join_split sep s : join (String sep "") (split sep s) = s.
Proof.
  induction s as [|c s IH]; [done|].
  destruct (decide (c = sep)) as [->|Hne].
  - rewrite split_cons_sep.
    destruct (split sep s) as [|h t] eqn:E; [by apply split_nonempty in E|].
    change (join (String sep "") ("" :: h :: t))
      with ("" +:+ String sep "" +:+ join (String sep "") (h :: t)).
    by rewrite IH.
  - destruct (split_cons_other sep c s Hne) as (h & t & Hs & ->).
    rewrite Hs in IH. destruct t as [|t1 t].
    + simpl in *. by rewrite IH.
    + change (join (String sep "") (String c h :: t1 :: t))
        with (String c h +:+ String sep "" +:+ join (String sep "") (t1 :: t)).
      change (join (String sep "") (h :: t1 :: t))
        with (h +:+ String sep "" +:+ join (String sep "") (t1 :: t)) in IH.
      by rewrite append_cons, IH.
Qed.

(** A string without the separator, the separator, and more. *)
Lemma split_app sep a b :
  sep ∉ String.list_ascii_of_string a →
  split sep (a +:+ String sep b) = a :: split sep b.
Proof.
  induction a as [|c a IH]; intros Hfree.
  - rewrite append_nil_l. apply split_cons_sep.
  - simpl in Hfree. apply not_elem_of_cons in Hfree as [Hne Hfree].
    rewrite append_cons.
    destruct (split_cons_other sep c (a +:+ String sep b) (not_eq_sym Hne))
      as (h & t & Hs & ->).
    rewrite (IH Hfree) in Hs. by injection Hs as <- <-.
Qed.

(** ** is_compound_street_address *)

(** X1.  The keys that [is_compound_street_address] rejects are those of the
    form a:street:rest, with a first segment a without ':' that need not
    be addr. *)
Theorem is_compound_street_address_shape s :
  is_compound_street_address s = true ↔
  ∃ a rest, colon_free a ∧ s = a +:+ ":street:" +:+ rest.
Proof.
  rewrite is_compound_street_address_spec. split.
  - intros [Hlen Hsnd].
    destruct (split ":" s) as [|a [|b [|c t]]] eqn:E; simpl in Hlen, Hsnd; try lia.
    injection Hsnd as ->.
    exists a, (join ":" (c :: t)). split.
    + apply (split_sep_free ":" s). rewrite E. left.
    + rewrite <- (join_split ":" s) at 1. rewrite E. done.
  - intros (a & rest & Hfree & ->).
    change (a +:+ ":street:" +:+ rest)
      with (a +:+ String ":" ("street" +:+ String ":" rest)).
    rewrite (split_app ":" a) by done.
    rewrite (split_app ":" "street") by compute_done.
    destruct (split ":" rest) eqn:E; [by apply split_nonempty in E|].
    simpl. split; [lia | done].
Qed.

(** ** What every returned document looks like *)

Section Schema.
Context {F : Type} (float : string → option F).
Implicit Types (node : gmap string (pyval F)) (e s : Element).

Lemma schema_insert node k (v : pyval F) :
  schema node → schema_value k v → (k = "type" → ∃ t, v = VStr t) →
  schema (<[k := v]> node).
Proof.
  intros [[t Ht] Hall] Hv Htype. split.
  - destruct (decide (k = "type")) as [->|Hne].
    + destruct Htype as [t' ->]; [done|]. exists t'. apply lookup_insert_eq.
    + exists t. by rewrite lookup_insert_ne.
  - intros k' v'. rewrite lookup_insert. case_decide as Hk.
    + intros [= <-]. by subst.
    + apply Hall.
Qed.

Lemma schema_lookup node k (v : pyval F) :
  schema node → node !! k = Some v → schema_value k v.
Proof. intros [_ Hall]. apply Hall. Qed.

Lemma schema_created_empty : schema_value (F := F) "created" (VDict ∅).
Proof. left. split; [done|]. intros a [v Hv]. by rewrite lookup_empty in Hv. Qed.

Lemma schema_created_insert m a v :
  a ∈ CREATED → schema_value (F := F) "created" (VDict m) →
  schema_value (F := F) "created" (VDict (<[a := v]> m)).
Proof.
  intros Ha [[_ Hm]|[? _]]; [|done]. left. split; [done|].
  intros a' [v' Hv']. apply lookup_insert_Some in Hv' as [[<- _]|[_ Hv']]; eauto.
Qed.

Lemma schema_address_empty : schema_value (F := F) "address" (VDict ∅).
Proof. right. split; [done|]. intros a [v Hv]. by rewrite lookup_empty in Hv. Qed.

Lemma schema_address_insert m a v :
  colon_free a → schema_value (F := F) "address" (VDict m) →
  schema_value (F := F) "address" (VDict (<[a := v]> m)).
Proof.
  intros Ha [[? _]|[_ Hm]]; [done|]. right. split; [done|].
  intros a' [v' Hv']. apply lookup_insert_Some in Hv' as [[<- _]|[_ Hv']]; eauto.
Qed.

Lemma schema_pos_nil : schema_value (F := F) "pos" (VList []).
Proof. left. split; [done|]. intros i Hi. by apply elem_of_nil in Hi. Qed.

Lemma schema_pos_cons l x :
  schema_value (F := F) "pos" (VList l) → schema_value "pos" (VList (AFloat x :: l)).
Proof.
  intros [[_ Hl]|[? _]]; [|done]. left. split; [done|].
  intros i Hi. apply elem_of_cons in Hi as [->|Hi]; eauto.
Qed.

Lemma schema_pos_snoc l x :
  schema_value (F := F) "pos" (VList l) → schema_value "pos" (VList (l ++ [AFloat x])).
Proof.
  intros [[_ Hl]|[? _]]; [|done]. left. split; [done|].
  intros i Hi. apply elem_of_app in Hi as [Hi|Hi]; [eauto|].
  apply list_elem_of_singleton in Hi as ->. eauto.
Qed.

Lemma schema_refs_nil : schema_value (F := F) "node_refs" (VList []).
Proof. right. split; [done|]. intros i Hi. by apply elem_of_nil in Hi. Qed.

Lemma schema_refs_snoc l r :
  schema_value (F := F) "node_refs" (VList l) →
  schema_value "node_refs" (VList (l ++ [AStr r])).
Proof.
  intros [[? _]|[_ Hl]]; [done|]. right. split; [done|].
  intros i Hi. apply elem_of_app in Hi as [Hi|Hi]; [eauto|].
  apply list_elem_of_singleton in Hi as ->. eauto.
Qed.

Create HintDb schema.
Hint Resolve schema_created_empty schema_created_insert schema_address_empty
  schema_address_insert schema_pos_nil schema_pos_cons schema_pos_snoc
  schema_refs_nil schema_refs_snoc : schema.

(** The values already in the document, as facts about their shape. *)
Ltac schema_facts Hs :=
  repeat match goal with
         | Hl : _ !! ?k = Some _ |- _ => apply (schema_lookup _ _ _ Hs) in Hl
         end.

Lemma classify_attribute_schema e node node' a :
  schema node → classify_attribute float e node a = Ok node' → schema node'.
Proof.
  intros Hs H. unfold classify_attribute in H.
  run_step H; injection H as <-; schema_facts Hs;
    repeat apply schema_insert; try done; eauto with schema.
  all: intros _; eauto.
Qed.

Lemma transform_tag_elem_schema node node' s :
  schema node → transform_tag_elem node s = Ok node' → schema node'.
Proof.
  intros Hs H. unfold transform_tag_elem in H.
  run_step H; injection H as <-; schema_facts Hs;
    repeat apply schema_insert; try done;
    try (apply schema_address_insert;
         [eapply (split_sep_free ":"), list_elem_of_lookup_2; eassumption|]);
    eauto with schema.
  all: intros _; eauto.
Qed.

Lemma transform_nd_tag_schema node node' s :
  schema node → transform_nd_tag node s = Ok node' → schema node'.
Proof.
  intros Hs H. unfold transform_nd_tag in H.
  run_step H; injection H as <-; schema_facts Hs;
    repeat apply schema_insert; try done; eauto with schema.
  apply (schema_refs_snoc []), schema_refs_nil.
Qed.

Lemma children_schema l node node' :
  schema node → for_in l classify_child node = Ok node' → schema node'.
Proof.
  revert node. induction l as [|s l IH]; intros node Hs H; simpl in H.
  - by injection H as <-.
  - apply bind_Ok_inv in H as (node1 & H1 & H2). apply (IH node1); [|done].
    rewrite classify_child_eq in H1. repeat case_decide.
    + by eapply transform_tag_elem_schema.
    + by eapply transform_nd_tag_schema.
    + by injection H1 as <-.
Qed.

Lemma attributes_schema e ks node node' :
  schema node → for_in ks (classify_attribute float e) node = Ok node' → schema node'.
Proof.
  revert node. induction ks as [|a ks IH]; intros node Hs H; simpl in H.
  - by injection H as <-.
  - apply bind_Ok_inv in H as (node1 & H1 & H2). apply (IH node1); [|done].
    by eapply classify_attribute_schema.
Qed.

Lemma shape_element_schema e d :
  shape_element float e = Ok (Some d) → schema d.
Proof.
  intros H. apply shape_element_inv in H as (_ & node1 & H1 & H2).
  eapply children_schema; [|exact H2].
  eapply attributes_schema; [|exact H1].
  split.
  - exists (tag e). apply lookup_insert_eq.
  - intros k v. rewrite lookup_insert. case_decide; [|by rewrite lookup_empty].
    by intros [= <-].
Qed.

(** X2.  A returned document always has its [type] key, with a string
    value, so it is never the empty dict and [if el:] in [process_map]
    keeps it. *)
Theorem shape_element_has_type e d :
  shape_element float e = Ok (Some d) →
  (∃ t, d !! "type" = Some (VStr t)) ∧ d ≠ ∅ ∧ truthy (Some d) = true.
Proof.
  intros H. destruct (shape_element_schema e d H) as [[t Ht] _].
  assert (d ≠ ∅) as Hne by (intros ->; by rewrite lookup_empty in Ht).
  repeat split; [eauto | done |]. simpl. by apply bool_decide_eq_true.
Qed.

(** X3.  In a returned document a dict value occurs only as [created],
    with keys among CREATED, or as [address], with keys that hold no
    ':'; a list value occurs only as [pos], holding floats, or as
    [node_refs], holding strings; every other value is a string. *)
Theorem shape_element_value_shapes e d k v :
  shape_element float e = Ok (Some d) → d !! k = Some v →
  match v with
  | VStr _ => True
  | VDict m =>
      (k = "created" ∧ ∀ a, is_Some (m !! a) → a ∈ CREATED) ∨
      (k = "address" ∧ ∀ a, is_Some (m !! a) → colon_free a)
  | VList l =>
      (k = "pos" ∧ ∀ i, i ∈ l → ∃ x, i = AFloat x) ∨
      (k = "node_refs" ∧ ∀ i, i ∈ l → ∃ r, i = AStr r)
  end.
Proof.
  intros H Hk. by apply (schema_lookup d k v (shape_element_schema e d H)).
Qed.

(** ** The attributes in the document *)

Lemma classify_attribute_created e node node' a acc :
  classify_attribute float e node a = Ok node' → a ≠ "created" →
  created_state (attrib e) acc (node !! "created") →
  created_state (attrib e) (acc ++ [a]) (node' !! "created").
Proof.
  intros H Ha Hst. unfold classify_attribute in H.
  destruct (decide (a ∈ CREATED)) as [Hc|Hc].
  - unfold getitem in H. destruct (attrib_get (attrib e) a) as [v|] eqn:Hv; [|done].
    simpl in H.
    assert (∀ m, (∀ a', m !! a' = if decide (a' ∈ CREATED ∧ a' ∈ acc)
                                   then attrib_get (attrib e) a' else None) →
              created_state (F := F) (attrib e) (acc ++ [a])
                (Some (VDict (<[a := v]> m)))) as Hnew.
    { intros m Hm. split.
      - exists a. split; [|done]. apply elem_of_app. right. left.
      - intros a'. rewrite lookup_insert. destruct (decide (a = a')) as [<-|Hne].
        + rewrite decide_True; [done|]. split; [done|]. apply elem_of_app. right. left.
        + rewrite Hm. apply decide_ext. rewrite elem_of_app, list_elem_of_singleton.
          split; [intros [? ?]; auto|]. intros [? [?|?]]; [done | congruence]. }
    destruct (node !! "created") as [[?|m|?]|] eqn:E; simpl in *;
      rewrite ?lookup_insert_eq, ?E in H; try done; injection H as <-;
      rewrite lookup_insert_eq; apply Hnew.
    + apply Hst.
    + intros a'. rewrite lookup_empty. case_decide as Hd; [|done].
      destruct Hd as [? ?]. exfalso. by apply (Hst a').
  - assert (node' !! "created" = node !! "created") as ->.
    { run_step H; injection H as <-; by rewrite ?lookup_insert_ne. }
    destruct (node !! "created") as [[?|m|?]|]; simpl in *; try done.
    + destruct Hst as [(a0 & Ha0 & Hc0) Hm]. split.
      * exists a0. split; [|done]. apply elem_of_app. by left.
      * intros a'. rewrite Hm. apply decide_ext.
        rewrite elem_of_app, list_elem_of_singleton.
        split; [intros [? ?]; auto|]. intros [? [? | ->]]; done.
    + intros a'. rewrite elem_of_app, list_elem_of_singleton. intros [? | ->]; auto.
Qed.

Lemma attributes_created e ks node node' acc :
  for_in ks (classify_attribute float e) node = Ok node' → "created" ∉ ks →
  created_state (attrib e) acc (node !! "created") →
  created_state (attrib e) (acc ++ ks) (node' !! "created").
Proof.
  revert node acc. induction ks as [|a ks IH]; intros node acc H Hks Hst; simpl in H.
  - injection H as <-. by rewrite app_nil_r.
  - apply bind_Ok_inv in H as (node1 & H1 & H2).
    apply not_elem_of_cons in Hks as [Ha Hks].
    rewrite (cons_middle a acc ks), app_assoc. apply (IH node1); [done..|].
    by apply (classify_attribute_created e node).
Qed.

(** X4.  With no attribute and no tag key named [created], the [created]
    field of a returned document is absent when the element has no
    attribute of CREATED, and else is the dict of exactly those attributes
    with their values. *)
Theorem shape_element_created e d :
  "created" ∉ (attrib e).*1 → "created" ∉ tag_keys (getiterator e) →
  shape_element float e = Ok (Some d) →
  match d !! "created" with
  | None => ∀ a, a ∈ (attrib e).*1 → a ∉ CREATED
  | Some v =>
      (∃ a, a ∈ (attrib e).*1 ∧ a ∈ CREATED) ∧
      ∃ m, v = VDict m ∧
        ∀ a, m !! a = if decide (a ∈ CREATED) then attrib_get (attrib e) a else None
  end.
Proof.
  intros Hattr Htags H. apply shape_element_inv in H as (_ & node1 & H1 & H2).
  rewrite (children_frame _ _ _ "created" H2) by done.
  pose proof (attributes_created e _ _ _ [] H1 Hattr) as Hst. simpl in Hst.
  rewrite lookup_insert_ne, lookup_empty in Hst by done.
  specialize (Hst (λ a Ha, False_rect _ (proj1 (elem_of_nil a) Ha))).
  destruct (node1 !! "created") as [[?|m|?]|]; simpl in Hst; try done.
  destruct Hst as [Hex Hm]. split; [done|]. exists m. split; [done|].
  intros a. rewrite Hm. destruct (decide (a ∈ CREATED)) as [Hc|Hc].
  - destruct (decide (a ∈ (attrib e).*1)) as [Hin|Hin].
    + by rewrite decide_True.
    + rewrite decide_False by (by intros [_ ?]).
      symmetry. by apply attrib_get_None.
  - by rewrite decide_False by (by intros [? _]).
Qed.

(** X5.  An attribute that is neither in CREATED nor in POSITION, and whose
    name is not that of a nested field or of a tag key, is in a returned
    document as a top-level string with its value. *)
Theorem shape_element_plain_attribute e d a v :
  wf_attrib (attrib e) → (a, v) ∈ attrib e →
  a ∉ CREATED → a ∉ POSITION →
  a ∉ ["created"; "pos"; "address"; "node_refs"] →
  a ∉ tag_keys (getiterator e) →
  shape_element float e = Ok (Some d) →
  d !! a = Some (VStr v).
Proof.
  intros Hwf Hin Hc Hp Hres Htags H.
  apply shape_element_inv in H as (_ & node1 & H1 & H2).
  rewrite !not_elem_of_cons in Hres. destruct Hres as (? & ? & ? & ? & _).
  rewrite (children_frame _ _ _ a H2) by done.
  assert (a ∈ (attrib e).*1) as Hkey by (apply list_elem_of_fmap; by exists (a, v)).
  pose proof (attrib_get_wf _ _ _ Hwf Hin) as Hv.
  unfold transform_element_attributes in H1. unfold wf_attrib in Hwf.
  apply list_elem_of_split in Hkey as (l1 & l2 & Hsplit).
  rewrite Hsplit in H1, Hwf.
  apply NoDup_app in Hwf as (_ & _ & Hnd2). apply NoDup_cons in Hnd2 as [Hnotin _].
  rewrite for_in_app in H1. apply bind_Ok_inv in H1 as (node0 & _ & H1).
  simpl in H1. apply bind_Ok_inv in H1 as (node2 & Hstep & H1).
  rewrite (attributes_frame _ _ _ _ _ a H1) by done.
  unfold classify_attribute, getitem in Hstep.
  rewrite Hv in Hstep. simpl in Hstep.
  rewrite !decide_False in Hstep by done. injection Hstep as <-.
  apply lookup_insert_eq.
Qed.

(** ** The order of the attributes *)

Lemma bind_assoc {A B C : Type} (m : res A) (f : A → res B) (g : B → res C) :
  (m ≫= f) ≫= g = m ≫= (λ a, f a ≫= g).
Proof. by destruct m. Qed.

(** The branch of [classify_attribute] that attribute [k] takes. *)
Ltac attribute_branch k :=
  let H := fresh "Hpos" in
  destruct (decide (k ∈ CREATED));
    [|destruct (decide (k ∈ POSITION)) as [H|H];
      [unfold POSITION in H; rewrite !elem_of_cons, elem_of_nil in H;
       destruct H as [?|[?|[]]]; subst k;
       [rewrite ?(decide_True (P := "lat" = "lat")) by done
       |rewrite ?(decide_False (P := "lon" = "lat")) by done]|]].

(** Two attributes of the dict, neither named [created] nor [pos], can be
    processed in either order. *)
Lemma classify_attribute_comm e node a b :
  attr_inv node → a ≠ b →
  a ∈ (attrib e).*1 → b ∈ (attrib e).*1 →
  a ≠ "created" → a ≠ "pos" → b ≠ "created" → b ≠ "pos" →
  classify_attribute float e node a ≫= (λ n, classify_attribute float e n b) =
  classify_attribute float e node b ≫= (λ n, classify_attribute float e n a).
Proof.
  intros [Hc Hp] Hab Ha Hb Hac Hap Hbc Hbp.
  destruct (attrib_get_is_Some _ _ Ha) as [va Hva].
  destruct (attrib_get_is_Some _ _ Hb) as [vb Hvb].
  unfold classify_attribute, getitem, to_float. rewrite Hva, Hvb. simpl.
  destruct (node !! "created") as [[?|mc|?]|] eqn:Ec; try done;
    destruct (node !! "pos") as [[?|?|lp]|] eqn:Ep; try done;
    attribute_branch a; attribute_branch b; try congruence;
    simpl; rewrite ?lookup_insert_eq, ?Ec, ?Ep; simpl;
    try (destruct (float va) eqn:Efa; simpl);
    try (destruct (float vb) eqn:Efb; simpl);
    rewrite ?Hva, ?Hvb; simpl;
    repeat first
      [ rewrite decide_True by done
      | rewrite decide_False by done
      | rewrite lookup_insert_eq
      | rewrite lookup_insert_ne by done
      | rewrite Ec | rewrite Ep | rewrite Efa | rewrite Efb
      | progress simpl ];
    try done;
    f_equal; apply map_eq; intros i; rewrite !lookup_insert;
    repeat case_decide; subst; try done; try congruence;
    f_equal; f_equal; apply insert_insert_ne; congruence.
Qed.

Lemma classify_attribute_ext e1 e2 node a :
  attrib_get (attrib e1) a = attrib_get (attrib e2) a →
  classify_attribute float e1 node a = classify_attribute float e2 node a.
Proof. intros H. unfold classify_attribute, getitem. by rewrite H. Qed.

Lemma attributes_ext e1 e2 ks node :
  (∀ a, attrib_get (attrib e1) a = attrib_get (attrib e2) a) →
  for_in ks (classify_attribute float e1) node =
  for_in ks (classify_attribute float e2) node.
Proof.
  intros H. revert node. induction ks as [|a ks IH]; intros node; simpl; [done|].
  rewrite (classify_attribute_ext e1 e2) by done.
  destruct (classify_attribute float e2 node a); simpl; [apply IH | done].
Qed.

(** A dict read by key does not depend on the order of its items. *)
Lemma attrib_get_perm (d1 d2 : list (string * string)) a :
  d1 ≡ₚ d2 → wf_attrib d1 → attrib_get d1 a = attrib_get d2 a.
Proof.
  intros Hperm Hwf.
  assert (wf_attrib d2) as Hwf2.
  { unfold wf_attrib in *. by rewrite <- Hperm. }
  destruct (attrib_get d1 a) as [v|] eqn:E.
  - symmetry. apply attrib_get_wf; [done|]. rewrite <- Hperm.
    by apply attrib_get_Some_elem.
  - symmetry. apply attrib_get_None. rewrite <- Hperm. by apply attrib_get_None.
Qed.

Lemma attributes_perm e ks1 ks2 node :
  ks1 ≡ₚ ks2 → NoDup ks1 → ks1 ⊆ (attrib e).*1 →
  "created" ∉ ks1 → "pos" ∉ ks1 → attr_inv node →
  for_in ks1 (classify_attribute float e) node =
  for_in ks2 (classify_attribute float e) node.
Proof.
  intros Hperm. revert node.
  induction Hperm as [|x l l' Hperm IH|x y l|l l' l'' Hperm1 IH1 Hperm2 IH2];
    intros node Hnd Hsub Hc Hp Hinv.
  - done.
  - apply NoDup_cons in Hnd as [_ Hnd].
    apply not_elem_of_cons in Hc as [Hxc Hc].
    apply not_elem_of_cons in Hp as [Hxp Hp].
    assert (x ∈ (attrib e).*1) as Hx by (apply Hsub; left).
    assert (l ⊆ (attrib e).*1) as Hsub' by (intros z Hz; apply Hsub; by right).
    pose proof (classify_attribute_inv float e node x Hinv
                  (not_eq_sym Hxc) (not_eq_sym Hxp) Hx) as Hstep.
    simpl. destruct (classify_attribute float e node x); simpl; [|done].
    by apply IH.
  - apply NoDup_cons in Hnd as [Hyx Hnd]. apply NoDup_cons in Hnd as [_ Hnd].
    apply not_elem_of_cons in Hyx as [Hyx _].
    apply not_elem_of_cons in Hc as [Hyc Hc]. apply not_elem_of_cons in Hc as [Hxc _].
    apply not_elem_of_cons in Hp as [Hyp Hp]. apply not_elem_of_cons in Hp as [Hxp _].
    assert (y ∈ (attrib e).*1) as Hy by (apply Hsub; left).
    assert (x ∈ (attrib e).*1) as Hx by (apply Hsub; right; left).
    change (for_in (y :: x :: l) (classify_attribute float e) node)
      with (classify_attribute float e node y ≫=
              (λ n, classify_attribute float e n x ≫= for_in l (classify_attribute float e))).
    change (for_in (x :: y :: l) (classify_attribute float e) node)
      with (classify_attribute float e node x ≫=
              (λ n, classify_attribute float e n y ≫= for_in l (classify_attribute float e))).
    rewrite <- !bind_assoc. f_equal.
    apply classify_attribute_comm; try done; congruence.
  - rewrite (IH1 node) by done. apply IH2; try done.
    + by rewrite <- Hperm1.
    + intros z Hz. apply Hsub. by rewrite Hperm1.
    + by rewrite <- Hperm1.
    + by rewrite <- Hperm1.
Qed.

Lemma getiterator_root t cs :
  ∃ rest, ∀ a', getiterator (mkElement t a' cs) = mkElement t a' cs :: rest.
Proof. eexists. intros a'. simpl. reflexivity. Qed.

(** X6.  The document does not depend on the order in which the attributes
    of the element are met, when none of them is named [created] or [pos]:
    two elements that differ only in the order of their attributes are
    shaped alike, to the same document or the same exception. *)
Theorem shape_element_attribute_order t a1 a2 cs :
  a1 ≡ₚ a2 → wf_attrib a1 →
  "created" ∉ a1.*1 → "pos" ∉ a1.*1 →
  shape_element float (mkElement t a1 cs) = shape_element float (mkElement t a2 cs).
Proof.
  intros Hperm Hwf Hc Hp. unfold shape_element. simpl.
  destruct (decide (t = "node" ∨ t = "way")) as [Hacc|Hacc]; [|done].
  assert (transform_element_attributes float (<["type" := VStr t]> ∅) (mkElement t a1 cs) =
          transform_element_attributes float (<["type" := VStr t]> ∅) (mkElement t a2 cs))
    as ->.
  { unfold transform_element_attributes. simpl.
    rewrite (attributes_ext (mkElement t a1 cs) (mkElement t a2 cs))
      by (intros a; by apply attrib_get_perm).
    apply attributes_perm; simpl.
    - by rewrite Hperm.
    - done.
    - by rewrite Hperm.
    - done.
    - done.
    - split; by rewrite lookup_insert_ne, lookup_empty. }
  destruct (transform_element_attributes _ _ _) as [node1|err]; simpl; [|done].
  assert (transform_sub_elem_attributes node1 (mkElement t a1 cs) =
          transform_sub_elem_attributes node1 (mkElement t a2 cs)) as ->; [|done].
  unfold transform_sub_elem_attributes.
  destruct (getiterator_root t cs) as [rest Hrest]. rewrite !Hrest. simpl.
  assert (t ≠ "tag" ∧ t ≠ "nd") as [Ht Hn] by (destruct Hacc as [-> | ->]; done).
  by rewrite !classify_child_eq, !decide_False by done.
Qed.

(** ** The children in the document *)

Lemma accepted_key_plain node s k v :
  accepted_key s k v → startswith k "addr:" = false →
  classify_child node s = Ok (<[k := VStr v]> node).
Proof.
  intros (Ht & Hk & Hv & Hrej) Hpre.
  rewrite classify_child_eq, decide_True by done.
  unfold transform_tag_elem, getitem. rewrite Hk, Hv. simpl. by rewrite Hrej, Hpre.
Qed.

(** X7.  An accepted "tag" child whose key does not start with [addr:] is in
    a returned document as a top-level string with its value, when no
    later "tag" descendant has the same key; it replaces an attribute of
    the same name. *)
Theorem shape_element_plain_tag e d l1 s l2 k v :
  getiterator e = l1 ++ s :: l2 →
  accepted_key s k v → startswith k "addr:" = false →
  k ∉ tag_keys l2 → k ≠ "address" → k ≠ "node_refs" →
  shape_element float e = Ok (Some d) →
  d !! k = Some (VStr v).
Proof.
  intros Hsplit Hkey Hpre Hlater Ha Hn H.
  apply shape_element_inv in H as (_ & node1 & _ & H2).
  unfold transform_sub_elem_attributes in H2. rewrite Hsplit, for_in_app in H2.
  apply bind_Ok_inv in H2 as (node2 & _ & H2). simpl in H2.
  apply bind_Ok_inv in H2 as (node3 & Hstep & H2).
  rewrite (children_frame _ _ _ k H2) by done.
  rewrite (accepted_key_plain node2 s k v) in Hstep by done.
  injection Hstep as <-. apply lookup_insert_eq.
Qed.

Lemma addr_keys_cons key s l :
  key ∉ addr_keys (s :: l) →
  (∀ k, tag s = "tag" → attrib_get (attrib s) "k" = Some k →
        contains_bad_char k || is_compound_street_address k = false →
        startswith k "addr:" = true → split ":" k !! 1 ≠ Some key) ∧
  key ∉ addr_keys l.
Proof.
  unfold addr_keys, writes_address. simpl.
  destruct (decide (tag s = "tag")) as [Ht|Ht]; [|done].
  destruct (attrib_get (attrib s) "k") as [k|]; [|done].
  destruct (contains_bad_char k || is_compound_street_address k) eqn:Hrej; simpl;
    [intros ?; split; [congruence|done]|].
  destruct (startswith k "addr:") eqn:Hpre; [|intros ?; split; [congruence|done]].
  destruct (split ":" k !! 1) as [key'|] eqn:Hseg.
  - rewrite not_elem_of_cons. intros [Hne Hl]. split; [|done].
    intros k' _ [= <-] _ _. congruence.
  - intros Hl. split; [|done]. intros k' _ [= <-] _ _. congruence.
Qed.

Lemma classify_child_address_entry node node' s key v :
  classify_child node s = Ok node' →
  has_address_entry node key v →
  (tag s = "tag" → attrib_get (attrib s) "k" ≠ Some "address") →
  (∀ k, tag s = "tag" → attrib_get (attrib s) "k" = Some k →
        contains_bad_char k || is_compound_street_address k = false →
        startswith k "addr:" = true → split ":" k !! 1 ≠ Some key) →
  has_address_entry node' key v.
Proof.
  intros H (m & Hm & Hkey) Hna Hnk. rewrite classify_child_eq in H.
  unfold has_address_entry. destruct (decide (tag s = "tag")) as [Ht|Ht].
  - specialize (Hna Ht). specialize (λ k, Hnk k Ht).
    unfold transform_tag_elem in H.
    run_step H; injection H as <-; simplify_eq;
      rewrite ?lookup_insert_ne by congruence; eauto.
    eexists. rewrite lookup_insert_eq. split; [done|].
    rewrite lookup_insert_ne; [done|]. intros <-. by eapply Hnk.
  - destruct (decide (tag s = "nd")); [|injection H as <-; eauto].
    unfold transform_nd_tag in H.
    run_step H; injection H as <-; rewrite lookup_insert_ne by done; eauto.
Qed.

Lemma children_address_entry l node node' key v :
  for_in l classify_child node = Ok node' →
  has_address_entry node key v →
  "address" ∉ tag_keys l → key ∉ addr_keys l →
  has_address_entry node' key v.
Proof.
  revert node. induction l as [|s l IH]; intros node H Hentry Hta Hak; simpl in H.
  - by injection H as <-.
  - apply bind_Ok_inv in H as (node1 & H1 & H2).
    apply tag_keys_cons in Hta as [Hs Hta].
    apply addr_keys_cons in Hak as [Hk Hak].
    apply (IH node1); try done.
    by apply (classify_child_address_entry node node1 s).
Qed.

(** X8.  An accepted "tag" child whose key starts with [addr:] is in a
    returned document as the entry of [address] under the second segment
    of its key, with its value, when no later "tag" descendant writes the
    same entry or has the key [address]. *)
Theorem shape_element_address_entry e d l1 s l2 k v key :
  getiterator e = l1 ++ s :: l2 →
  accepted_key s k v → startswith k "addr:" = true →
  split ":" k !! 1 = Some key →
  key ∉ addr_keys l2 → "address" ∉ tag_keys l2 →
  shape_element float e = Ok (Some d) →
  ∃ m, d !! "address" = Some (VDict m) ∧ m !! key = Some v.
Proof.
  intros Hsplit (Ht & Hk & Hv & Hrej) Hpre Hseg Hlater Haddr H.
  apply shape_element_inv in H as (_ & node1 & _ & H2).
  unfold transform_sub_elem_attributes in H2. rewrite Hsplit, for_in_app in H2.
  apply bind_Ok_inv in H2 as (node2 & _ & H2). simpl in H2.
  apply bind_Ok_inv in H2 as (node3 & Hstep & H2).
  apply (children_address_entry l2 node3 d key v H2); [|done..].
  rewrite classify_child_eq, decide_True in Hstep by done.
  unfold transform_tag_elem, getitem in Hstep. rewrite Hk, Hv in Hstep.
  simpl in Hstep. rewrite Hrej, Hpre, Hseg in Hstep.
  unfold has_address_entry.
  destruct (node2 !! "address") as [[?|m|?]|] eqn:E; simpl in Hstep;
    rewrite ?lookup_insert_eq, ?E in Hstep; try done; injection Hstep as <-;
    eexists; rewrite !lookup_insert_eq; split; try done; apply lookup_insert_eq.
Qed.

(** ** Children that are incomplete or of no interest *)

Lemma classify_child_incomplete node s :
  complete_child s = false → classify_child node s = Err KeyError.
Proof.
  intros H. rewrite classify_child_eq. unfold complete_child in H.
  destruct (decide (tag s = "tag")) as [Ht|Ht].
  - unfold transform_tag_elem, getitem.
    destruct (attrib_get (attrib s) "k"); [|done]. simpl.
    by destruct (attrib_get (attrib s) "v").
  - destruct (decide (tag s = "nd")) as [Hn|Hn]; [|done].
    unfold transform_nd_tag, getitem.
    by destruct (attrib_get (attrib s) "ref").
Qed.

Lemma children_incomplete l node s :
  s ∈ l → complete_child s = false →
  ∃ err, for_in l classify_child node = Err err.
Proof.
  intros Hin Hs. revert node. induction l as [|s' l IH]; intros node.
  - by apply elem_of_nil in Hin.
  - simpl. apply elem_of_cons in Hin as [<-|Hin].
    + rewrite classify_child_incomplete by done. simpl. eauto.
    + destruct (classify_child node s'); simpl; eauto.
Qed.

(** X9.  A "tag" descendant without [k] or without [v], or an "nd"
    descendant without [ref], raises KeyError when it is met, whatever the
    document and also when the key, if there, would be rejected; an
    accepted element that has one is not shaped to a document. *)
Theorem shape_element_incomplete_child e s :
  accepted e → s ∈ getiterator e → complete_child s = false →
  (∀ node : gmap string (pyval F), classify_child node s = Err KeyError) ∧
  ∃ err, shape_element float e = Err err.
Proof.
  intros Hacc Hin Hs. split; [intros node; by apply classify_child_incomplete|].
  rewrite shape_element_accepted by done.
  destruct (transform_element_attributes _ _ _) as [node1|err]; simpl; [|eauto].
  unfold transform_sub_elem_attributes.
  destruct (children_incomplete (getiterator e) node1 s Hin Hs) as [err ->].
  simpl. eauto.
Qed.

(** X10.  The child loop depends only on the "tag" and "nd" descendants, in
    their order: the other descendants, at any depth, can be left out. *)
Theorem transform_sub_elem_attributes_relevant (node : gmap string (pyval F)) e :
  transform_sub_elem_attributes node e =
  for_in (filter (λ s, relevant_child s) (getiterator e)) classify_child node.
Proof.
  unfold transform_sub_elem_attributes. generalize (getiterator e). intros l.
  revert node. induction l as [|s l IH]; intros node; [done|].
  rewrite filter_cons. unfold relevant_child at 1.
  destruct (decide (tag s = "tag" ∨ tag s = "nd")) as [Hrel|Hrel].
  - rewrite decide_True by (by apply bool_decide_pack).
    simpl. destruct (classify_child node s); simpl; [apply IH | done].
  - rewrite decide_False by (intros Hb; by apply bool_decide_unpack in Hb).
    simpl. rewrite classify_child_eq.
    rewrite !decide_False by (intros ?; apply Hrel; auto). simpl. apply IH.
Qed.
(** ** The keys of the document *)

Lemma classify_attribute_keys e node node' a k :
  classify_attribute float e node a = Ok node' → is_Some (node' !! k) →
  is_Some (node !! k) ∨ k = a ∨ k = "created" ∨ k = "pos".
Proof.
  intros H Hk. unfold classify_attribute in H.
  run_step H; injection H as <-;
    repeat (rewrite lookup_insert in Hk; case_decide; subst); auto.
Qed.

Lemma classify_child_keys node node' s k :
  classify_child node s = Ok node' → is_Some (node' !! k) →
  is_Some (node !! k) ∨ k = "address" ∨ k = "node_refs" ∨
  (tag s = "tag" ∧ attrib_get (attrib s) "k" = Some k).
Proof.
  intros H Hk. rewrite classify_child_eq in H.
  destruct (decide (tag s = "tag")) as [Ht|Ht];
    [|destruct (decide (tag s = "nd")) as [Hn|Hn]].
  - unfold transform_tag_elem in H.
    run_step H; injection H as <-;
      repeat (rewrite lookup_insert in Hk; case_decide; subst); auto.
  - unfold transform_nd_tag in H.
    run_step H; injection H as <-;
      repeat (rewrite lookup_insert in Hk; case_decide; subst); auto.
  - injection H as <-. auto.
Qed.

(** X11.  [shape_element] invents no key: a key of a returned document is
    [type], the name of a nested field, the name of an attribute of the
    element or the key of one of its "tag" descendants. *)
Theorem shape_element_keys e d k :
  shape_element float e = Ok (Some d) → is_Some (d !! k) →
  k ∈ ["type"; "created"; "pos"; "address"; "node_refs"] ∨
  k ∈ (attrib e).*1 ∨ k ∈ tag_keys (getiterator e).
Proof.
  intros H Hk. apply shape_element_inv in H as (_ & node1 & H1 & H2).
  assert (∀ l (n n' : gmap string (pyval F)),
            for_in l classify_child n = Ok n' → is_Some (n' !! k) →
            is_Some (n !! k) ∨ k = "address" ∨ k = "node_refs" ∨ k ∈ tag_keys l)
    as Hchildren.
  { induction l as [|s l IH]; intros n n' Hl Hn'; simpl in Hl.
    - injection Hl as <-. auto.
    - apply bind_Ok_inv in Hl as (n1 & Hs & Hl).
      destruct (IH _ _ Hl Hn') as [Hn1|[?|[?|Hin]]]; auto.
      + destruct (classify_child_keys _ _ _ _ Hs Hn1) as [?|[?|[?|[Ht Hkk]]]]; auto.
        do 3 right. apply (tag_keys_elem (s :: l) s k); [left | done..].
      + do 3 right. unfold tag_keys in *. simpl.
        destruct (decide (tag s = "tag")); [|done].
        destruct (attrib_get (attrib s) "k"); [by right | done]. }
  assert (∀ ks (n n' : gmap string (pyval F)),
            for_in ks (classify_attribute float e) n = Ok n' → is_Some (n' !! k) →
            is_Some (n !! k) ∨ k = "created" ∨ k = "pos" ∨ k ∈ ks) as Hattrs.
  { induction ks as [|a ks IH]; intros n n' Hl Hn'; simpl in Hl.
    - injection Hl as <-. auto.
    - apply bind_Ok_inv in Hl as (n1 & Hs & Hl).
      destruct (IH _ _ Hl Hn') as [Hn1|[?|[?|Hin]]]; auto.
      + destruct (classify_attribute_keys _ _ _ _ _ Hs Hn1) as [?|[->|[?|?]]]; auto.
        do 3 right. left.
      + do 3 right. by right. }
  rewrite !elem_of_cons.
  destruct (Hchildren _ _ _ H2 Hk) as [Hn1|[?|[?|?]]]; auto 10.
  destruct (Hattrs _ _ _ H1 Hn1) as [Hn0|[?|[?|?]]]; auto 10.
  rewrite lookup_insert in Hn0. case_decide; subst; auto.
  rewrite lookup_empty in Hn0. by destruct Hn0.
Qed.

(** ** The address field as a whole *)

Lemma classify_child_address_None node node' s :
  classify_child node s = Ok node' →
  (tag s = "tag" → attrib_get (attrib s) "k" ≠ Some "address") →
  node' !! "address" = None ↔ node !! "address" = None ∧ writes_address s = false.
Proof.
  intros H Hna. rewrite classify_child_eq in H. unfold writes_address.
  destruct (decide (tag s = "tag")) as [Ht|Ht].
  - specialize (Hna Ht). unfold transform_tag_elem in H.
    run_step H; injection H as <-; simplify_eq;
      repeat match goal with
             | Hb : _ || _ = _ |- _ => rewrite Hb
             | Hb : startswith _ _ = _ |- _ => rewrite Hb
             end; simpl;
      rewrite ?lookup_insert_eq, ?lookup_insert_ne by congruence;
      split; try tauto; try (by intros [? ?]); try done;
      intros ?; congruence.
  - destruct (decide (tag s = "nd")); [|injection H as <-; tauto].
    unfold transform_nd_tag in H.
    run_step H; injection H as <-; rewrite lookup_insert_ne by done; tauto.
Qed.

Lemma children_address_None l node node' :
  for_in l classify_child node = Ok node' → "address" ∉ tag_keys l →
  node' !! "address" = None ↔
  node !! "address" = None ∧ Forall (λ s, writes_address s = false) l.
Proof.
  revert node. induction l as [|s l IH]; intros node H Hta; simpl in H.
  - injection H as <-. split; [by split | by intros [? _]].
  - apply bind_Ok_inv in H as (node1 & H1 & H2).
    apply tag_keys_cons in Hta as [Hs Hta].
    rewrite (IH node1 H2 Hta), (classify_child_address_None node node1 s H1 Hs).
    rewrite Forall_cons. tauto.
Qed.

(** X12.  With no attribute and no tag key named [address], a returned
    document has no [address] field exactly when the element has no "tag"
    descendant with an accepted key that starts with [addr:]. *)
Theorem shape_element_address_absent e d :
  "address" ∉ (attrib e).*1 → "address" ∉ tag_keys (getiterator e) →
  shape_element float e = Ok (Some d) →
  d !! "address" = None ↔ Forall (λ s, writes_address s = false) (getiterator e).
Proof.
  intros Hattr Htags H. apply shape_element_inv in H as (_ & node1 & H1 & H2).
  rewrite (children_address_None _ _ _ H2 Htags).
  rewrite (attributes_frame _ _ _ _ _ "address" H1) by done.
  rewrite lookup_insert_ne, lookup_empty by done. tauto.
Qed.
End Schema.

(** ** process_map *)

Section ProcessMapProperties.
Context {F : Type} (float : string → option F).
Context (dumps : option nat → gmap string (pyval F) → string).

Lemma json_lines_cons pretty (d : gmap string (pyval F)) data :
  json_lines dumps pretty (d :: data) =
  (dumps (if pretty then Some 2 else None) d +:+ String "010" "") +:+
  json_lines dumps pretty data.
Proof.
  unfold json_lines. destruct data as [|d' data]; simpl.
  - by rewrite append_nil_r.
  - done.
Qed.

Lemma shape_element_truthy e d :
  shape_element float e = Ok (Some d) → truthy (Some d) = true.
Proof.
  intros H. destruct (shape_element_schema float e d H) as [[t Ht] _].
  simpl. apply bool_decide_eq_true. intros ->. by rewrite lookup_empty in Ht.
Qed.

Lemma shape_element_None e : shape_element float e = Ok None → ¬ accepted e.
Proof.
  intros H Hacc. rewrite shape_element_accepted in H by done.
  destruct (transform_element_attributes _ _ _); simpl in H; [|done].
  by destruct (transform_sub_elem_attributes _ _).
Qed.

(** The loop of [process_map], from any state. *)
Lemma process_elements_spec l pretty data0 fo0 :
  match process_elements float dumps l pretty data0 fo0 with
  | (fo, Ok data) =>
      ∃ docs, Forall2 (λ e d, shape_element float e = Ok (Some d)) (filter accepted l) docs ∧
              data = data0 ++ docs ∧ fo = fo0 +:+ json_lines dumps pretty docs
  | (fo, Err err) =>
      ∃ l1 x l2 docs,
        l = l1 ++ x :: l2 ∧ shape_element float x = Err err ∧
        Forall2 (λ e d, shape_element float e = Ok (Some d)) (filter accepted l1) docs ∧
        fo = fo0 +:+ json_lines dumps pretty docs
  end.
Proof.
  revert data0 fo0. induction l as [|x l IH]; intros data0 fo0; simpl.
  - exists []. by rewrite app_nil_r, append_nil_r.
  - destruct (shape_element float x) as [[d|]|err] eqn:Hx.
    + rewrite (shape_element_truthy x d Hx).
      apply shape_element_inv in Hx as Hacc. destruct Hacc as [Hacc _].
      set (line := dumps (if pretty then Some 2 else None) d +:+ String "010" "").
      assert ((if pretty then fo0 +:+ (dumps (Some 2) d +:+ String "010" "")
               else fo0 +:+ (dumps None d +:+ String "010" "")) = fo0 +:+ line) as ->
        by (by destruct pretty).
      specialize (IH (data0 ++ [d]) (fo0 +:+ line)).
      destruct (process_elements float dumps l pretty _ _) as [fo [data|err]].
      * destruct IH as (docs & Hdocs & -> & ->). exists (d :: docs).
        rewrite filter_cons, decide_True by done.
        repeat split; [by constructor | by rewrite <- app_assoc |].
        by rewrite json_lines_cons, append_assoc.
      * destruct IH as (l1 & x' & l2 & docs & -> & Hx' & Hdocs & ->).
        exists (x :: l1), x', l2, (d :: docs).
        rewrite filter_cons, decide_True by done.
        repeat split; [done | by constructor |].
        by rewrite json_lines_cons, append_assoc.
    + apply shape_element_None in Hx as Hacc. simpl.
      specialize (IH data0 fo0).
      destruct (process_elements float dumps l pretty _ _) as [fo [data|err]].
      * destruct IH as (docs & Hdocs & -> & ->). exists docs.
        by rewrite filter_cons, decide_False.
      * destruct IH as (l1 & x' & l2 & docs & -> & Hx' & Hdocs & ->).
        exists (x :: l1), x', l2, docs.
        by rewrite filter_cons, decide_False.
    + exists [], x, l, []. by rewrite append_nil_r.
Qed.

(** X13.  When [process_map] returns, the list holds the documents of the
    "node" and "way" elements of the file, one each, in the order of their
    end tags; the elements with other tag names leave no trace; the file
    holds one line per document, in the same order. *)
Theorem process_map_returns file_in pretty fo data :
  process_map float dumps file_in pretty = (fo, Ok data) →
  Forall2 (λ e d, shape_element float e = Ok (Some d))
          (filter accepted (iterparse file_in)) data ∧
  length data = length (filter accepted (iterparse file_in)) ∧
  fo = json_lines dumps pretty data.
Proof.
  intros H. unfold process_map in H.
  pose proof (process_elements_spec (iterparse file_in) pretty [] "") as Hspec.
  rewrite H in Hspec. destruct Hspec as (docs & Hdocs & -> & ->).
  split; [done|]. split; [symmetry; by eapply Forall2_length | done].
Qed.


Lemma iterparse_root t a cs :
  iterparse (mkElement t a cs) = (cs ≫= iterparse) ++ [mkElement t a cs].
Proof.
  simpl. f_equal.
Qed.

(** X16.  On a file whose "node" and "way" elements are children of the
    root and hold no "node" or "way" element themselves, as in a map
    file, the returned list holds the documents of those children in
    document order. *)
Theorem process_map_children t a cs pretty fo data :
  ¬ accepted (mkElement t a cs) →
  (∀ c, c ∈ cs → filter accepted (iterparse c) = filter accepted [c]) →
  process_map float dumps (mkElement t a cs) pretty = (fo, Ok data) →
  Forall2 (λ e d, shape_element float e = Ok (Some d)) (filter accepted cs) data.
Proof.
  intros Hroot Hflat H. unfold process_map in H.
  pose proof (process_elements_spec (iterparse (mkElement t a cs)) pretty [] "") as Hspec.
  rewrite H in Hspec. destruct Hspec as (docs & Hdocs & -> & _).
  clear H. rename Hdocs into H. simpl.
  rewrite iterparse_root, filter_app in H.
  rewrite (filter_cons _ (mkElement t a cs)), decide_False, filter_nil, app_nil_r in H
    by done.
  assert (filter accepted (cs ≫= iterparse) = filter accepted cs) as <-; [|done].
  clear H Hroot. induction cs as [|c cs IH]; [done|].
  rewrite bind_cons, filter_app, (Hflat c) by left.
  rewrite IH by (intros c' Hc'; apply Hflat; by right).
  rewrite (filter_cons _ c cs), (filter_cons _ c []), filter_nil.
  by destruct (decide (accepted c)).
Qed.
End ProcessMapProperties.

(** ** extract_carriers *)






(** ** The further properties on sample input *)

Example shape_ex_way_tagged :
  shape_element decimal_float ex_way_tagged = Ok (Some ex_way_tagged_doc).
Proof. vm_compute. reflexivity. Qed.

Example process_map_ex_osm :
  process_map decimal_float ex_dumps ex_osm false =
    ("{node}" +:+ String "010" ("{way}" +:+ String "010" ""),
     Ok [ex_node_doc; ex_way_doc]).
Proof. vm_compute. reflexivity. Qed.

Example extract_carriers_ex_page : extract_carriers ex_page = Ok ["FL"; "NK"].
Proof. vm_compute. reflexivity. Qed.

Lemma shape_element_has_type_witness :
  (∃ t, ex_way_doc !! "type" = Some (VStr t)) ∧ ex_way_doc ≠ ∅ ∧
  truthy (Some ex_way_doc) = true.
Proof.
  apply (shape_element_has_type decimal_float ex_way ex_way_doc).
  vm_compute. reflexivity.
Defined.

Lemma shape_element_value_shapes_witness :
  ("address" = "created" ∧
   ∀ a, is_Some ((<["housenumber" := "5158"]> (<["street" := "North Lincoln Avenue"]> ∅)
                  : gmap string string) !! a) → a ∈ CREATED) ∨
  ("address" = "address" ∧
   ∀ a, is_Some ((<["housenumber" := "5158"]> (<["street" := "North Lincoln Avenue"]> ∅)
                  : gmap string string) !! a) → colon_free a).
Proof.
  apply (shape_element_value_shapes decimal_float ex_way ex_way_doc "address"
           (VDict (<["housenumber" := "5158"]> (<["street" := "North Lincoln Avenue"]> ∅)))).
  - vm_compute. reflexivity.
  - vm_compute. reflexivity.
Defined.

Lemma shape_element_created_witness :
  match ex_node_doc !! "created" with
  | None => ∀ a, a ∈ (attrib ex_node).*1 → a ∉ CREATED
  | Some v =>
      (∃ a, a ∈ (attrib ex_node).*1 ∧ a ∈ CREATED) ∧
      ∃ m, v = VDict m ∧
        ∀ a, m !! a = if decide (a ∈ CREATED) then attrib_get (attrib ex_node) a else None
  end.
Proof.
  apply (shape_element_created decimal_float ex_node ex_node_doc).
  - compute_done.
  - compute_done.
  - vm_compute. reflexivity.
Defined.

Lemma shape_element_plain_attribute_witness :
  ex_node_doc !! "visible" = Some (VStr "true").
Proof.
  apply (shape_element_plain_attribute decimal_float ex_node ex_node_doc "visible" "true").
  - compute_done.
  - compute_done.
  - compute_done.
  - compute_done.
  - compute_done.
  - compute_done.
  - vm_compute. reflexivity.
Defined.

Lemma shape_element_attribute_order_witness :
  shape_element decimal_float
    (mkElement "node" [("lon", "-87.6866303"); ("id", "261114295"); ("lat", "41.9730791")] []) =
  shape_element decimal_float
    (mkElement "node" [("id", "261114295"); ("lat", "41.9730791"); ("lon", "-87.6866303")] []).
Proof.
  apply (shape_element_attribute_order decimal_float "node").
  - compute_done.
  - compute_done.
  - compute_done.
  - compute_done.
Defined.

Lemma shape_element_plain_tag_witness :
  ex_way_tagged_doc !! "id" = Some (VStr "from a tag").
Proof.
  apply (shape_element_plain_tag decimal_float ex_way_tagged ex_way_tagged_doc
           [ex_way_tagged; mk_tag "gnis:feature_id" "423587"]
           (mk_tag "id" "from a tag") [] "id" "from a tag").
  - reflexivity.
  - repeat split; vm_compute; reflexivity.
  - vm_compute. reflexivity.
  - compute_done.
  - compute_done.
  - compute_done.
  - vm_compute. reflexivity.
Defined.

Lemma shape_element_address_entry_witness :
  ∃ m, ex_way_doc !! "address" = Some (VDict m) ∧
       m !! "street" = Some "North Lincoln Avenue".
Proof.
  apply (shape_element_address_entry decimal_float ex_way ex_way_doc
           [ex_way; mk_nd "305896090"; mk_nd "1719825889"; mk_nd "305896090";
            mk_tag "addr:housenumber" "5158"]
           (mk_tag "addr:street" "North Lincoln Avenue")
           [mk_tag "addr:street:name" "Lincoln"; mk_tag "addr:street:prefix" "North";
            mk_tag "addr:street:type" "Avenue"; mk_tag "amenity" "pharmacy"]
           "addr:street" "North Lincoln Avenue" "street").
  - reflexivity.
  - repeat split; vm_compute; reflexivity.
  - vm_compute. reflexivity.
  - vm_compute. reflexivity.
  - compute_done.
  - compute_done.
  - vm_compute. reflexivity.
Defined.

Lemma shape_element_incomplete_child_witness :
  (∀ node : gmap string (pyval Decimal.decimal),
     classify_child node (mkElement "tag" [("k", "amenity")] []) = Err KeyError) ∧
  ∃ err, shape_element decimal_float ex_way_incomplete = Err err.
Proof.
  apply (shape_element_incomplete_child decimal_float ex_way_incomplete
           (mkElement "tag" [("k", "amenity")] [])).
  - right. reflexivity.
  - simpl. rewrite !elem_of_cons. right. right. left. reflexivity.
  - vm_compute. reflexivity.
Defined.

Lemma shape_element_keys_witness :
  "amenity" ∈ ["type"; "created"; "pos"; "address"; "node_refs"] ∨
  "amenity" ∈ (attrib ex_way).*1 ∨ "amenity" ∈ tag_keys (getiterator ex_way).
Proof.
  apply (shape_element_keys decimal_float ex_way ex_way_doc "amenity").
  - vm_compute. reflexivity.
  - vm_compute. eauto.
Defined.

Lemma shape_element_address_absent_witness :
  ex_node_doc !! "address" = None ↔
  Forall (λ s, writes_address s = false) (getiterator ex_node).
Proof.
  apply (shape_element_address_absent decimal_float ex_node ex_node_doc).
  - compute_done.
  - compute_done.
  - vm_compute. reflexivity.
Defined.

Lemma process_map_returns_witness :
  Forall2 (λ e d, shape_element decimal_float e = Ok (Some d))
          (filter accepted (iterparse ex_osm)) [ex_node_doc; ex_way_doc] ∧
  length [ex_node_doc; ex_way_doc] = length (filter accepted (iterparse ex_osm)) ∧
  "{ node }" +:+ String "010" ("{ way }" +:+ String "010" "") =
    json_lines ex_dumps true [ex_node_doc; ex_way_doc].
Proof.
  apply (process_map_returns decimal_float ex_dumps ex_osm true).
  vm_compute. reflexivity.
Defined.



Lemma process_map_children_witness :
  Forall2 (λ e d, shape_element decimal_float e = Ok (Some d))
          (filter accepted (children ex_osm)) [ex_node_doc; ex_way_doc].
Proof.
  apply (process_map_children decimal_float ex_dumps "osm" (attrib ex_osm) (children ex_osm)
           false ("{node}" +:+ String "010" ("{way}" +:+ String "010" ""))).
  - intros [H|H]; discriminate H.
  - apply (proj1 (Forall_forall
                    (λ c, filter accepted (iterparse c) = filter accepted [c])
                    (children ex_osm))).
    repeat (apply Forall_cons_2; [vm_compute; reflexivity|]). apply Forall_nil_2.
  - vm_compute. reflexivity.
Defined.

